(** * The builder endpoint: stage pipeline over a switchable output stream

    A shallow embedding of the [builderAction] request handler (the
    [api.builder] route) and of the stream it answers with.  The handler
    runs an optional builder call, an optional chat summary and the text
    generation, writes progress records and annotations on a data stream,
    and hands the generated text to a [SwitchableStream].

    Conventions of the embedding
    - JavaScript numbers that count things (the progress counter, token
      counts, HTTP status codes, lengths) are integers of [Z]; a sum of
      token counts is rounded the way a sum of doubles is ([addDouble]).
    - A thrown JavaScript value is a [Thrown]: an [Error] with its message,
      or some other value.
    - The mutable locals of one request ([progressCounter],
      [cumulativeUsage]), the data stream, the switchable stream and the
      logger are the fields of one [State], threaded through a small
      state-and-exception monad [M].
    - The collaborators the handler awaits ([fetch], [createSummary],
      [streamText], [getFilePaths]) are the fields of an [Env].
    - The handler writes its progress records and annotations on the data
      stream that [createDataStream] gives to [execute], and the generated
      text on the switchable stream, whose readable side is the body of
      the response: the two are separate fields of the state. *)

From Stdlib Require Import ZArith List String Ascii Bool Lia.
From Stdlib Require Import DecimalString Sorting.Sorted.
Import ListNotations.

Local Open Scope string_scope.
Local Open Scope Z_scope.

Set Implicit Arguments.

(** ** JavaScript values the handler observes *)

(** A value raised by [throw]: [error instanceof Error] holds exactly for
    [ErrorObj], whose [message] is kept. *)
Inductive Thrown : Type :=
| ErrorObj (message : string)
| NonError.

(** [error instanceof Error ? error.message : 'Unknown error'] *)
Definition errorDetail (error : Thrown) : string :=
  match error with
  | ErrorObj message => message
  | NonError => "Unknown error"
  end.

(** Template-literal rendering of an integer, [`${n}`]. *)
Definition showZ (n : Z) : string := NilZero.string_of_int (Z.to_int n).

(** A parsed JSON value, kept as the text [JSON.stringify] gives back. *)
Inductive Json : Type := JsonText (serialized : string).

Definition JSON_stringify (j : Json) : string :=
  match j with JsonText s => s end.

(** [TextEncoder.encode]: a string is already its byte sequence. *)
Definition encode (chunk : string) : list Byte.byte := list_byte_of_string chunk.

(** ** The switchable output stream *)

Module SwitchableStream.

(** The class [SwitchableStream] of [lib/.server/llm/switchable-stream] is
    imported by the handler and is not among the sources.  It is modelled
    from section 4.1 of the specification: one output handle, at most one
    active source, [switchSource] replacing the active source without
    further reads of the previous one, the output ending when the active
    source ends and failing when it fails, an idempotent [close], and
    cancellation by the consumer. *)

Inductive Ending : Type :=
| EndOfData
| Failure (error : Thrown).

(** What a readable source still has to deliver: its chunks in order,
  then its terminal signal. *)
Record Source (A : Type) : Type := mkSource {
  chunks : list A;
  ending : Ending
}.

Inductive Phase : Type :=
| Open
| Ended
| Errored (error : Thrown).

(** Modelled from the spec: the stream itself, as [create()] hands it out:
    the output seen by the consumer, the active source held by the
    controller, and whether the output is still open. *)
Record t (A : Type) : Type := mk {
  output : list A;            (* forwarded to the consumer so far *)
  active : option (Source A); (* the source forwarding is bound to *)
  phase : Phase
}.

Section Ops.
Context {A : Type}.

(** Modelled from the spec: [create()], an open stream with nothing
    forwarded and no source yet. *)
Definition create : t A :=
  {| output := []; active := None; phase := Open |}.

(** Modelled from the spec: [switchSource(newSource)]; what was
    forwarded stays, the previous source is dropped unread. *)
Definition switchSource (newSource : Source A) (s : t A) : t A :=
  {| output := output s;
     active := Some newSource;
     phase := phase s |}.

Definition settle (e : Ending) : Phase :=
  match e with
  | EndOfData => Ended
  | Failure error => Errored error
  end.

(** Modelled from the spec: one forwarding step of the open stream;
    the next chunk of the active source goes to the output, and the
    terminal signal of the source becomes that of the output. *)
Definition forward (s : t A) : option (t A) :=
  match phase s, active s with
  | Open, Some src =>
      match chunks src with
      | c :: rest =>
          Some {| output := output s ++ [c];
                  active := Some {| chunks := rest; ending := ending src |};
                  phase := Open |}
      | [] =>
          Some {| output := output s;
                  active := None;
                  phase := settle (ending src) |}
      end
  | _, _ => None
  end.

(** Forwarding for at most [n] steps. *)
Fixpoint pump (n : nat) (s : t A) : t A :=
  match n with
  | O => s
  | S k => match forward s with
           | Some s' => pump k s'
           | None => s
           end
  end.

(** The number of steps that exhausts the active source. *)
Definition pending (s : t A) : nat :=
  match active s with
  | Some src => S (List.length (chunks src))
  | None => O
  end.

Definition drain (s : t A) : t A := pump (pending s) s.

(** Modelled from the spec: [close()]. *)
Definition close (s : t A) : t A :=
  {| output := output s;
     active := None;
     phase := match phase s with Open => Ended | p => p end |}.

(** Modelled from the spec: the consumer cancels; the active source is
    told to stop and nothing more is forwarded. *)
Definition cancel (s : t A) : t A := close s.

(** The forwarding steps as a relation, for statements about every
    moment after a switch. *)
Inductive forwards : t A -> t A -> Prop :=
| forwards_refl s : forwards s s
| forwards_step s s' s'' :
    forward s = Some s' -> forwards s' s'' -> forwards s s''.

End Ops.

End SwitchableStream.

(** ** The request *)

Record Message : Type := mkMessage {
  id : option string;         (* [undefined] for a message without id *)
  role : string;
  content : string
}.

Definition Messages : Type := list Message.

(** The file-path-to-content mapping of the request. *)
Definition FileMap : Type := list (string * string).

Record BuilderConfig : Type := mkBuilderConfig {
  backendUrl : string;
  apiKey : option string;
  options : option Json
}.

Record RequestBody : Type := mkRequestBody {
  messages : Messages;
  files : option FileMap;     (* [files: any], [None] when falsy *)
  promptId : option string;
  contextOptimization : bool;
  builderConfig : option BuilderConfig
}.

(** A body that [request.json()] could parse.
    - [NoMessages]: [messages] is not an array, so that [messages.reduce]
      raises the given [TypeError].
    - [WellFormed]: the fields are as typed. *)
Inductive ParsedBody : Type :=
| NoMessages (typeError : Thrown)
| WellFormed (body : RequestBody).

(** The request: what [await request.json()] settles to (it rejects when
    the body is not JSON), and what the two [JSON.parse(parseCookies(..))]
    of the [Cookie] header evaluate to. *)
Record Request : Type := mkRequest {
  json : Thrown + ParsedBody;
  cookieApiKeys : Thrown + Json;
  cookieProviders : Thrown + Json
}.

(** ** Records written on the data stream *)

Inductive Status : Type := InProgress | Complete.

Record ProgressAnnotation : Type := mkProgress {
  label : string;
  status : Status;
  order : Z;
  message : string
}.

(** Token usage, over the type of a counter: [Usage Z] for the running
    total, [Usage (option Z)] for a report whose fields may be missing or
    [NaN]. *)
Record Usage (N : Type) : Type := mkUsage {
  completionTokens : N;
  promptTokens : N;
  totalTokens : N
}.

Definition UsageReport : Type := Usage (option Z).

Inductive MessageAnnotation : Type :=
| ContextData (summary : string) (chatId : string)         (* type: 'contextData' *)
| ChatSummary (summary : string) (chatId : option string)  (* type: 'chatSummary' *)
| UsageAnnotation (value : Usage Z).                       (* type: 'usage' *)

(** One part read from [result.fullStream]: [text] is [Some] when the part
    has a string field [text], likewise [textDelta]. *)
Record StreamPart : Type := mkPart {
  text : option string;
  textDelta : option string
}.

Inductive DataPart : Type :=
| Data (value : ProgressAnnotation)          (* dataStream.writeData *)
| Annotation (value : MessageAnnotation)     (* dataStream.writeMessageAnnotation *)
| Merged (parts : list StreamPart)           (* result.mergeIntoDataStream(dataStream) *)
| ErrorPart (text : string).                 (* the error part of createDataStream, with the text of onError *)

(** ** Collaborators *)

Record BuilderPayload : Type := mkPayload {
  payloadMessages : Messages;
  builderOptions : Json
}.

Record FetchInit : Type := mkInit {
  method : string;
  headers : list (string * string);
  body : BuilderPayload               (* before [JSON.stringify] *)
}.

Module BuilderResponse.

Record t : Type := mk {
  status : Z;
  json : Thrown + Json              (* [await builderResponse.json()] *)
}.

(** [Response.ok]: the status is in the range 200-299. *)
Definition ok (r : t) : bool := (200 <=? status r) && (status r <=? 299).

End BuilderResponse.

Record SummaryArgs : Type := mkSummaryArgs {
  summaryMessages : Messages;
  summaryApiKeys : Json;
  summaryProviderSettings : Json;
  summaryPromptId : option string;
  summaryContextOptimization : bool
}.

(** One run of [createSummary]: the responses it hands to [onFinish], then
    the summary it resolves to or the value it rejects with. *)
Record SummaryRun : Type := mkSummaryRun {
  finished : list (option UsageReport);  (* [resp.usage] of each [onFinish(resp)] *)
  outcome : Thrown + string
}.

Record StreamTextArgs : Type := mkStreamTextArgs {
  genMessages : Messages;
  genApiKeys : Json;
  genFiles : option FileMap;
  genProviderSettings : Json;
  genPromptId : option string;
  genContextOptimization : bool;
  genSummary : option string;
  genMessageSliceId : Z
}.

Record FinishEvent : Type := mkFinish {
  finishReason : string;
  usage : option UsageReport
}.

(** What [streamText] resolves to: the parts of [fullStream] with the way
    the iteration ends, and the terminal notification the generator gives
    to [options.onFinish], if it ever does. *)
Record StreamTextResult : Type := mkResult {
  fullStream : SwitchableStream.Source StreamPart;
  finish : option FinishEvent
}.

(** The functions the handler calls and awaits.  [getFilePaths]
    (select-context), [createSummary] (create-summary) and [streamText]
    (stream-text) are imported by the handler and are not among the
    sources, [fetch] is the platform's: each is taken as given. *)
Record Env : Type := mkEnv {
  getFilePaths : FileMap -> list string;
  fetch : string -> FetchInit -> Thrown + BuilderResponse.t;
  createSummary : SummaryArgs -> SummaryRun;
  streamText : StreamTextArgs -> Thrown + StreamTextResult
}.

(** ** State of one request *)

(** What passes between the handler and its collaborators: the calls it
    makes, and the callbacks it receives. *)
Inductive Event : Type :=
| CallFetch (url : string) (init : FetchInit)
| CallCreateSummary (args : SummaryArgs)
| SummaryFinished (usage : option UsageReport)   (* createSummary calls onFinish(resp) *)
| CallStreamText (args : StreamTextArgs)
| Finished (ev : FinishEvent).                   (* the generator calls options.onFinish *)

Inductive LogEntry : Type :=
| LogDebug (text : string)
| LogDebugUsage (text : string) (usage : option UsageReport)
| LogError (text : string) (error : Thrown)
| ConsoleLog (text : string).

Record State : Type := mkState {
  progressCounter : Z;
  cumulativeUsage : Usage Z;
  dataStream : list DataPart;                       (* writes, oldest first *)
  stream : SwitchableStream.t (list Byte.byte);
  logger : list LogEntry;                           (* oldest first *)
  trace : list Event                                (* oldest first *)
}.

(** The locals of [builderAction] as they are declared. *)
Definition initialState : State :=
  {| progressCounter := 1;
     cumulativeUsage := {| completionTokens := 0; promptTokens := 0; totalTokens := 0 |};
     dataStream := [];
     stream := SwitchableStream.create;
     logger := [];
     trace := [] |}.

(** ** The monad of the handler: state and exceptions *)

Inductive Completion (A : Type) : Type :=
| Normal (value : A)
| Throws (error : Thrown).

Arguments Throws {A} error.

Definition M (A : Type) : Type := State -> Completion A * State.

Definition ret {A} (a : A) : M A := fun s => (Normal a, s).

Definition bind {A B} (m : M A) (k : A -> M B) : M B :=
  fun s => match m s with
           | (Normal a, s') => k a s'
           | (Throws e, s') => (Throws e, s')
           end.

Definition throw {A} (error : Thrown) : M A := fun s => (Throws error, s).

(** [try { body } catch (error) { handler }]: the effects of [body] up to
    the exception stay. *)
Definition tryCatch {A} (body : M A) (handler : Thrown -> M A) : M A :=
  fun s => match body s with
           | (Normal a, s') => (Normal a, s')
           | (Throws e, s') => handler e s'
           end.

(** [await] of a promise that resolves or rejects. *)
Definition await {A} (p : Thrown + A) : M A :=
  match p with
  | inl error => throw error
  | inr a => ret a
  end.

Definition gets {A} (f : State -> A) : M A := fun s => (Normal (f s), s).

Definition modify (f : State -> State) : M unit := fun s => (Normal tt, f s).

Declare Scope handler_scope.
Delimit Scope handler_scope with handler.
Notation "x <- m ;; k" := (bind m (fun x => k))
  (at level 61, m at next level, right associativity) : handler_scope.
Notation "m ;; k" := (bind m (fun _ => k))
  (at level 61, right associativity) : handler_scope.
Local Open Scope handler_scope.

(** ** Primitive effects *)

Definition setProgressCounter (n : Z) (s : State) : State :=
  {| progressCounter := n;
     cumulativeUsage := cumulativeUsage s;
     dataStream := dataStream s;
     stream := stream s;
     logger := logger s;
     trace := trace s |}.

Definition setCumulativeUsage (u : Usage Z) (s : State) : State :=
  {| progressCounter := progressCounter s;
     cumulativeUsage := u;
     dataStream := dataStream s;
     stream := stream s;
     logger := logger s;
     trace := trace s |}.

Definition pushDataStream (p : DataPart) (s : State) : State :=
  {| progressCounter := progressCounter s;
     cumulativeUsage := cumulativeUsage s;
     dataStream := dataStream s ++ [p];
     stream := stream s;
     logger := logger s;
     trace := trace s |}.

Definition setStream (st : SwitchableStream.t (list Byte.byte)) (s : State) : State :=
  {| progressCounter := progressCounter s;
     cumulativeUsage := cumulativeUsage s;
     dataStream := dataStream s;
     stream := st;
     logger := logger s;
     trace := trace s |}.

Definition pushLog (e : LogEntry) (s : State) : State :=
  {| progressCounter := progressCounter s;
     cumulativeUsage := cumulativeUsage s;
     dataStream := dataStream s;
     stream := stream s;
     logger := logger s ++ [e];
     trace := trace s |}.

Definition pushEvent (c : Event) (s : State) : State :=
  {| progressCounter := progressCounter s;
     cumulativeUsage := cumulativeUsage s;
     dataStream := dataStream s;
     stream := stream s;
     logger := logger s;
     trace := trace s ++ [c] |}.

(** [progressCounter++] *)
Definition postIncrement : M Z :=
  fun s => (Normal (progressCounter s), setProgressCounter (progressCounter s + 1) s).

Definition writeData (value : ProgressAnnotation) : M unit :=
  modify (pushDataStream (Data value)).

Definition writeMessageAnnotation (value : MessageAnnotation) : M unit :=
  modify (pushDataStream (Annotation value)).

(** [dataStream.writeData({ type: 'progress', label, status,
    order: progressCounter++, message })] *)
Definition writeProgress (label : string) (status : Status) (message : string) : M unit :=
  order <- postIncrement ;;
  writeData {| label := label; status := status; order := order; message := message |}.

Definition log (e : LogEntry) : M unit := modify (pushLog e).

Definition callFetch (env : Env) (url : string) (init : FetchInit) : M BuilderResponse.t :=
  modify (pushEvent (CallFetch url init)) ;;
  await (fetch env url init).

Definition callStreamText (env : Env) (args : StreamTextArgs) : M StreamTextResult :=
  modify (pushEvent (CallStreamText args)) ;;
  await (streamText env args).

(** ** Pieces of [execute] *)

(** [let messageSliceId = 0;
     if (messages.length > 3) messageSliceId = messages.length - 3] *)
Definition messageSliceId (messages : Messages) : Z :=
  let length := Z.of_nat (List.length messages) in
  if 3 <? length then length - 3 else 0.

(** [messages.slice(-1)] *)
Definition sliceLast {A} (l : list A) : list A :=
  skipn (List.length l - 1)%nat l.

(** [messages.slice(-1)?.[0]?.id] *)
Definition lastMessageId (messages : Messages) : option string :=
  match nth_error (sliceLast messages) 0 with
  | Some m => id m
  | None => None
  end.

(** [x || ''] on a string that may be undefined. *)
Definition orEmpty (x : option string) : string :=
  match x with
  | Some s => s
  | None => ""
  end.

(** [x || 0] on a number that may be undefined or [NaN]. *)
Definition orZero (x : option Z) : Z :=
  match x with
  | Some n => n
  | None => 0
  end.

(** Truthiness of a string: it is not empty. *)
Definition truthy (x : string) : bool :=
  match x with
  | EmptyString => false
  | String _ _ => true
  end.

(** The double nearest to an integer, ties to even: an integer of at most
    53 bits is a double, a larger one keeps its 53 leading bits.  The
    largest double is not modelled. *)
Definition toDouble (n : Z) : Z :=
  let e := Z.log2 (Z.abs n) - 52 in
  if e <=? 0 then n
  else
    let ulp := 2 ^ e in
    let q := n / ulp in
    let r := n mod ulp in
    if 2 * r <? ulp then q * ulp
    else if ulp <? 2 * r then (q + 1) * ulp
    else if Z.even q then q * ulp else (q + 1) * ulp.

(** [a + b] on numbers with integer values: the sum, rounded to a double. *)
Definition addDouble (a b : Z) : Z := toDouble (a + b).

(** [cumulativeUsage.f += usage.f || 0] for the three fields. *)
Definition addUsage (usage : UsageReport) (total : Usage Z) : Usage Z :=
  {| completionTokens := addDouble (completionTokens total) (orZero (completionTokens usage));
     promptTokens := addDouble (promptTokens total) (orZero (promptTokens usage));
     totalTokens := addDouble (totalTokens total) (orZero (totalTokens usage)) |}.

Definition accumulate (usage : UsageReport) : M unit :=
  modify (fun s => setCumulativeUsage (addUsage usage (cumulativeUsage s)) s).

(** The headers of the builder call. *)
Definition builderHeaders (cfg : BuilderConfig) : list (string * string) :=
  ("Content-Type", "application/json")
  :: match apiKey cfg with
     | Some key => if truthy key then [("Authorization", "Bearer " ++ key)%string] else []
     | None => []
     end.

Definition builderInit (cfg : BuilderConfig) (messages : Messages) : FetchInit :=
  {| method := "POST";
     headers := builderHeaders cfg;
     body := {| payloadMessages := messages;
                builderOptions := match options cfg with
                                  | Some o => o
                                  | None => JsonText "{}"
                                  end |} |}.

(** The [try] block of the builder stage. *)
Definition builderTry (env : Env) (cfg : BuilderConfig) (messages : Messages) : M unit :=
  builderResponse <- callFetch env (backendUrl cfg) (builderInit cfg messages) ;;
  (if negb (BuilderResponse.ok builderResponse)
   then throw (ErrorObj ("Builder server returned status "
                         ++ showZ (BuilderResponse.status builderResponse))%string)
   else ret tt) ;;
  builderData <- await (BuilderResponse.json builderResponse) ;;
  writeMessageAnnotation
    (ContextData (JSON_stringify builderData) (orEmpty (lastMessageId messages))) ;;
  writeProgress "builder" Complete "Builder server processing complete".

(** The [catch] block of the builder stage. *)
Definition builderCatch (error : Thrown) : M unit :=
  log (LogError "Error calling builder server" error) ;;
  writeProgress "builder" InProgress
    ("Builder server error: " ++ errorDetail error)%string.

(** The body of [if (builderConfig?.backendUrl)]. *)
Definition builderStage (env : Env) (cfg : BuilderConfig) (messages : Messages) : M unit :=
  log (LogDebug "Calling backend builder server") ;;
  writeProgress "builder" InProgress "Connecting to builder server" ;;
  tryCatch (builderTry env cfg messages) builderCatch.

(** The [onFinish] callback given to [createSummary]. *)
Definition summaryOnFinish (usage : option UsageReport) : M unit :=
  modify (pushEvent (SummaryFinished usage)) ;;
  match usage with
  | Some u =>
      log (LogDebugUsage "createSummary token usage" (Some u)) ;;
      accumulate u
  | None => ret tt
  end.

Fixpoint forEach {A} (f : A -> M unit) (l : list A) : M unit :=
  match l with
  | [] => ret tt
  | x :: rest => f x ;; forEach f rest
  end.

(** [await createSummary({ ..., onFinish })] *)
Definition callCreateSummary (env : Env) (args : SummaryArgs) : M string :=
  modify (pushEvent (CallCreateSummary args)) ;;
  let run := createSummary env args in
  forEach summaryOnFinish (finished run) ;;
  await (outcome run).

(** The argument of [createSummary]. *)
Definition summaryArgs (apiKeys providerSettings : Json) (b : RequestBody) : SummaryArgs :=
  {| summaryMessages := messages b;
     summaryApiKeys := apiKeys;
     summaryProviderSettings := providerSettings;
     summaryPromptId := promptId b;
     summaryContextOptimization := contextOptimization b |}.

(** The body of [if (filePaths.length > 0 && contextOptimization)]. *)
Definition summaryStage (env : Env) (apiKeys providerSettings : Json) (b : RequestBody)
  : M string :=
  log (LogDebug "Generating Chat Summary") ;;
  writeProgress "summary" InProgress "Analysing Request" ;;
  log (ConsoleLog ("Messages count: " ++ showZ (Z.of_nat (List.length (messages b))))%string) ;;
  summary <- callCreateSummary env (summaryArgs apiKeys providerSettings b) ;;
  writeProgress "summary" Complete "Analysis Complete" ;;
  writeMessageAnnotation (ChatSummary summary (lastMessageId (messages b))) ;;
  ret summary.

(** [files || {}] *)
Definition filesOrEmpty (b : RequestBody) : FileMap :=
  match files b with
  | Some f => f
  | None => []
  end.

(** [filePaths.length > 0 && contextOptimization], with
    [filePaths = getFilePaths(files || {})]. *)
Definition summaryEnabled (env : Env) (b : RequestBody) : bool :=
  let filePaths := getFilePaths env (filesOrEmpty b) in
  (0 <? Z.of_nat (List.length filePaths)) && contextOptimization b.

(** [options.onFinish], the callback of the generation. *)
Definition onFinish (ev : FinishEvent) : M unit :=
  modify (pushEvent (Finished ev)) ;;
  log (LogDebugUsage "usage" (usage ev)) ;;
  match usage ev with
  | Some u => accumulate u
  | None => ret tt
  end ;;
  if negb (String.eqb (finishReason ev) "length") then
    total <- gets cumulativeUsage ;;
    writeMessageAnnotation
      (UsageAnnotation {| completionTokens := completionTokens total;
                          promptTokens := promptTokens total;
                          totalTokens := totalTokens total |}) ;;
    writeProgress "response" Complete "Response Generated"
  else
    (* Handle length exceeded cases similar to original chat implementation *)
    ret tt.

(** The chunk the text stream takes from one part of [fullStream]. *)
Definition chunkOf (part : StreamPart) : string :=
  match text part with
  | Some t => t
  | None => match textDelta part with
            | Some d => d
            | None => ""
            end
  end.

(** What the [for await] loop enqueues: the encoded non-empty chunks. *)
Fixpoint enqueued (parts : list StreamPart) : list (list Byte.byte) :=
  match parts with
  | [] => []
  | part :: rest =>
      if truthy (chunkOf part)
      then encode (chunkOf part) :: enqueued rest
      else enqueued rest
  end.

(** [new ReadableStream({ start(controller) { ... } })] over [fullStream]:
    it closes when the iteration ends and fails when the iteration fails. *)
Definition textStream (result : StreamTextResult)
  : SwitchableStream.Source (list Byte.byte) :=
  {| SwitchableStream.chunks := enqueued (SwitchableStream.chunks (fullStream result));
     SwitchableStream.ending := SwitchableStream.ending (fullStream result) |}.

(** [await stream.switchSource(textStream)] *)
Definition switchSource (source : SwitchableStream.Source (list Byte.byte)) : M unit :=
  modify (fun s => setStream (SwitchableStream.switchSource source (stream s)) s).

(** The argument of [streamText]; [contextFiles] is always undefined and
    the options carry [toolChoice: 'none'] and [onFinish]. *)
Definition generatorArgs (apiKeys providerSettings : Json) (b : RequestBody)
  (summary : option string) : StreamTextArgs :=
  {| genMessages := messages b;
     genApiKeys := apiKeys;
     genFiles := files b;
     genProviderSettings := providerSettings;
     genPromptId := promptId b;
     genContextOptimization := contextOptimization b;
     genSummary := summary;
     genMessageSliceId := messageSliceId (messages b) |}.

(** ** [execute], the function given to [createDataStream] *)

(** The stages in order.  The value is the generator that was started, for
    its callbacks to be delivered afterwards. *)
Definition execute (env : Env) (apiKeys providerSettings : Json) (b : RequestBody)
  : M StreamTextResult :=
  match builderConfig b with                 (* if (builderConfig?.backendUrl) *)
  | Some cfg => if truthy (backendUrl cfg)
                then builderStage env cfg (messages b)
                else ret tt
  | None => ret tt
  end ;;
  summary <- (if summaryEnabled env b
              then s <- summaryStage env apiKeys providerSettings b ;; ret (Some s)
              else ret None) ;;
  writeProgress "response" InProgress "Generating Response" ;;
  result <- callStreamText env (generatorArgs apiKeys providerSettings b summary) ;;
  modify (pushDataStream (Merged (SwitchableStream.chunks (fullStream result)))) ;;
  switchSource (textStream result) ;;
  ret result.

(** What happens once [execute] has returned: the consumer reads the text
    stream to its end, and the generator calls [onFinish] if it finishes. *)
Definition completion (result : StreamTextResult) : M unit :=
  modify (fun s => setStream (SwitchableStream.drain (stream s)) s) ;;
  match finish result with
  | Some ev => onFinish ev
  | None => ret tt
  end.

(** The [onError] that [createDataStream] (package [ai]) falls back on
    when it is given none, as here: the error is masked by a fixed text. *)
Definition onError (error : Thrown) : string := "An error occurred.".

(** [createDataStream({ execute })]: [execute] runs; an exception of it is
    reported as an error part on the data stream, with the text of
    [onError], and goes no further. *)
Definition createDataStream (env : Env) (apiKeys providerSettings : Json) (b : RequestBody)
  : M unit :=
  tryCatch (result <- execute env apiKeys providerSettings b ;; completion result)
           (fun error => modify (pushDataStream (ErrorPart (onError error)))).

(** ** [builderAction] *)

Inductive HttpResult : Type :=
| Rejects (error : Thrown)                          (* the handler's promise rejects *)
| StreamResponse (headers : list (string * string)) (* new Response(stream.readable, ..) *)
| JsonResponse (status : Z) (headers : list (string * string)) (error : string).

(** [s.split(' ').length] *)
Fixpoint splitLength (s : string) : Z :=
  match s with
  | EmptyString => 1
  | String c rest => (if Ascii.eqb c " " then 1 else 0) + splitLength rest
  end.

(** [messages.reduce((acc, message) => acc + message.content, '')] *)
Definition totalMessageContent (messages : Messages) : string :=
  fold_left (fun acc message => (acc ++ content message)%string) messages "".

(** The [try] block of [builderAction]. *)
Definition builderActionTry (env : Env) (apiKeys providerSettings : Json) (j : ParsedBody)
  : M HttpResult :=
  match j with
  | NoMessages typeError => throw typeError
  | WellFormed b =>
      log (LogDebug ("Total message length: "
                     ++ showZ (splitLength (totalMessageContent (messages b)))
                     ++ ", words")%string) ;;
      createDataStream env apiKeys providerSettings b ;;
      ret (StreamResponse [("Content-Type", "text/plain; charset=utf-8");
                           ("Transfer-Encoding", "chunked");
                           ("X-Content-Type-Options", "nosniff")])
  end.

(** The [catch] block of [builderAction]. *)
Definition builderActionCatch (error : Thrown) : M HttpResult :=
  log (LogError "Error in builder endpoint" error) ;;
  ret (JsonResponse 500 [("Content-Type", "application/json")] (errorDetail error)).

(** The handler.  The request body and the cookies are read before the
    [try] block is entered, so a rejection there is a rejection of the
    handler. *)
Definition builderAction (env : Env) (request : Request) : HttpResult * State :=
  match json request with
  | inl error => (Rejects error, initialState)
  | inr j =>
      match cookieApiKeys request with
      | inl error => (Rejects error, initialState)
      | inr apiKeys =>
          match cookieProviders request with
          | inl error => (Rejects error, initialState)
          | inr providerSettings =>
              match tryCatch (builderActionTry env apiKeys providerSettings j)
                             builderActionCatch initialState with
              | (Normal response, s) => (response, s)
              | (Throws error, s) => (Rejects error, s)
              end
          end
      end
  end.

(** ** Observations on a run *)

(** The state the handler leaves behind. *)
Definition finalState (env : Env) (request : Request) : State :=
  snd (builderAction env request).

(** The progress records of a data stream, in the order they were written. *)
Fixpoint progressRecords (l : list DataPart) : list ProgressAnnotation :=
  match l with
  | [] => []
  | Data p :: rest => p :: progressRecords rest
  | _ :: rest => progressRecords rest
  end.

Definition progressOrders (l : list DataPart) : list Z :=
  map order (progressRecords l).

(** [1; 2; ...; n] *)
Definition countUp (n : nat) : list Z := map Z.of_nat (seq 1 n).

(** The annotations of a data stream, in the order they were written. *)
Fixpoint annotations (l : list DataPart) : list MessageAnnotation :=
  match l with
  | [] => []
  | Annotation a :: rest => a :: annotations rest
  | _ :: rest => annotations rest
  end.

(** The usage reports the callbacks received, in the order they came. *)
Fixpoint usageReports (t : list Event) : list (option UsageReport) :=
  match t with
  | [] => []
  | SummaryFinished u :: rest => u :: usageReports rest
  | Finished ev :: rest => usage ev :: usageReports rest
  | _ :: rest => usageReports rest
  end.

(** The field-wise arithmetic sum of usage reports, as the specification
    words it: an absent report, or an absent field, counts for zero. *)
Definition reportField (f : UsageReport -> option Z) (r : option UsageReport) : Z :=
  match r with
  | Some u => orZero (f u)
  | None => 0
  end.

Definition sumField (f : UsageReport -> option Z) (rs : list (option UsageReport)) : Z :=
  fold_right Z.add 0 (map (reportField f) rs).

Definition sumReports (rs : list (option UsageReport)) : Usage Z :=
  {| completionTokens := sumField (@completionTokens _) rs;
     promptTokens := sumField (@promptTokens _) rs;
     totalTokens := sumField (@totalTokens _) rs |}.

(** The body of a request that reaches the [try] block with typed fields. *)
Definition bodyOf (request : Request) : option RequestBody :=
  match json request with
  | inr (WellFormed b) => Some b
  | _ => None
  end.

(** The request is read without an exception: body [b], API keys [a] and
    provider settings [p]. *)
Definition parsed (request : Request) (b : RequestBody) (a p : Json) : Prop :=
  json request = inr (WellFormed b)
  /\ cookieApiKeys request = inr a
  /\ cookieProviders request = inr p.

(** The last element of a list, if any. *)
Fixpoint lastOf {A} (l : list A) : option A :=
  match l with
  | [] => None
  | [x] => Some x
  | _ :: rest => lastOf rest
  end.

(** One more report on a running total; an absent report changes nothing. *)
Definition addReport (r : option UsageReport) (total : Usage Z) : Usage Z :=
  match r with
  | Some u => addUsage u total
  | None => total
  end.

(** What the summary callback logs over a sequence of reports. *)
Definition summaryLogs (l : list (option UsageReport)) : list LogEntry :=
  flat_map (fun r => match r with
                     | Some u => [LogDebugUsage "createSummary token usage" (Some u)]
                     | None => []
                     end) l.

(** The builder call fails with [error]: [fetch] rejects (transport error),
    or the response is not 2xx, or its body cannot be read as JSON. *)
Inductive builderFails (env : Env) (cfg : BuilderConfig) (ms : Messages) : Thrown -> Prop :=
| transportError error :
    fetch env (backendUrl cfg) (builderInit cfg ms) = inl error ->
    builderFails env cfg ms error
| non2xx r :
    fetch env (backendUrl cfg) (builderInit cfg ms) = inr r ->
    BuilderResponse.ok r = false ->
    builderFails env cfg ms
      (ErrorObj ("Builder server returned status " ++ showZ (BuilderResponse.status r))%string)
| badBody r error :
    fetch env (backendUrl cfg) (builderInit cfg ms) = inr r ->
    BuilderResponse.ok r = true ->
    BuilderResponse.json r = inl error ->
    builderFails env cfg ms error.

(** The same request with the builder configuration taken out. *)
Definition withoutBuilder (request : Request) : Request :=
  {| json := match json request with
             | inr (WellFormed b) =>
                 inr (WellFormed {| messages := messages b;
                                    files := files b;
                                    promptId := promptId b;
                                    contextOptimization := contextOptimization b;
                                    builderConfig := None |})
             | other => other
             end;
     cookieApiKeys := cookieApiKeys request;
     cookieProviders := cookieProviders request |}.

(** A part of the data stream with the order of a progress record moved
    up by [k]. *)
Definition shiftOrder (k : Z) (part : DataPart) : DataPart :=
  match part with
  | Data p => Data {| label := label p;
                      status := status p;
                      order := order p + k;
                      message := message p |}
  | other => other
  end.

(** What the summary stage leaves in [summary]: nothing when the stage is
    skipped, the summary when [createSummary] resolves; [inl] when it
    rejects. *)
Definition summaryOf (env : Env) (a p : Json) (b : RequestBody) : Thrown + option string :=
  if summaryEnabled env b
  then match outcome (createSummary env (summaryArgs a p b)) with
       | inl error => inl error
       | inr summary => inr (Some summary)
       end
  else inr None.

(** [m] keeps [I]: whatever [m] returns or throws, [I] holds afterwards if
    it held before. *)
Definition preserves {A} (I : State -> Prop) (m : M A) : Prop :=
  forall s, I s -> I (snd (m s)).

(** The orders written so far are 1, 2, ..., n and the counter holds n + 1. *)
Definition contiguous (s : State) : Prop :=
  exists n : nat,
    progressOrders (dataStream s) = countUp n /\ progressCounter s = Z.of_nat n + 1.

(** The usage reports a request gives rise to, stage by stage: those of
    the summary if the summary stage runs, then that of the generation if
    the generator is reached and finishes.  The builder reports none. *)
Definition requestReports (env : Env) (a p : Json) (b : RequestBody)
  : list (option UsageReport) :=
  ((if summaryEnabled env b
    then finished (createSummary env (summaryArgs a p b))
    else [])
   ++ match summaryOf env a p b with
      | inr summary =>
          match streamText env (generatorArgs a p b summary) with
          | inr result => match finish result with
                          | Some ev => [usage ev]
                          | None => []
                          end
          | inl _ => []
          end
      | inl _ => []
      end)%list.

(** The running total after the reports [rs], the way the callbacks
    compute it. *)
Definition accumulated (rs : list (option UsageReport)) : Usage Z :=
  fold_left (fun total r => addReport r total) rs
    {| completionTokens := 0; promptTokens := 0; totalTokens := 0 |}.

(** [Number.MAX_SAFE_INTEGER] *)
Definition MAX_SAFE_INTEGER : Z := 2 ^ 53 - 1.

(** [Number.isSafeInteger], on an integer. *)
Definition isSafeInteger (n : Z) : bool :=
  (- MAX_SAFE_INTEGER <=? n) && (n <=? MAX_SAFE_INTEGER).

(** Field [f] of every report is a safe integer, and so is its sum with
    the reports before it; [total] is the sum so far. *)
Fixpoint safeField (f : UsageReport -> option Z) (total : Z)
  (rs : list (option UsageReport)) : bool :=
  match rs with
  | [] => true
  | r :: rest =>
      isSafeInteger (reportField f r)
      && isSafeInteger (total + reportField f r)
      && safeField f (total + reportField f r) rest
  end.

(** The token counts of the reports, and their sums as they build up, stay
    within the safe integers. *)
Definition safeReports (rs : list (option UsageReport)) : bool :=
  safeField (@completionTokens _) 0 rs
  && safeField (@promptTokens _) 0 rs
  && safeField (@totalTokens _) 0 rs.

(** ** Sample requests *)

Definition sampleMessage (i : string) : Message :=
  {| id := Some i; role := "user"; content := "hello world" |}.

Definition sampleBuilder : BuilderConfig :=
  {| backendUrl := "http://builder.test/build"; apiKey := Some "k"; options := None |}.

(** Five messages, one file, context optimization on, a builder. *)
Definition sampleBody : RequestBody :=
  {| messages := [sampleMessage "m1"; sampleMessage "m2"; sampleMessage "m3";
                  sampleMessage "m4"; sampleMessage "m5"];
     files := Some [("/home/project/app.ts", "export {}")];
     promptId := None;
     contextOptimization := true;
     builderConfig := Some sampleBuilder |}.

(** Two messages, no file, context optimization off, no builder. *)
Definition plainBody : RequestBody :=
  {| messages := [sampleMessage "m1"; sampleMessage "m2"];
     files := None;
     promptId := None;
     contextOptimization := false;
     builderConfig := None |}.

Definition requestOf (b : RequestBody) : Request :=
  {| json := inr (WellFormed b);
     cookieApiKeys := inr (JsonText "{}");
     cookieProviders := inr (JsonText "{}") |}.

Definition sampleResponse (status : Z) : BuilderResponse.t :=
  {| BuilderResponse.status := status;
     BuilderResponse.json := inr (JsonText "{}") |}.

(** Collaborators: the builder answers with [status]; the summary reports
    1 completion token and 3 in total; the generator yields "ab", an empty
    delta and "c", and finishes with [reason], reporting 10, 20 and 30. *)
Definition sampleEnv (status : Z) (reason : string) : Env :=
  {| getFilePaths := map fst;
     fetch := fun _ _ => inr (sampleResponse status);
     createSummary := fun _ =>
       {| finished := [Some {| completionTokens := Some 1;
                               promptTokens := None;
                               totalTokens := Some 3 |}];
          outcome := inr "summary of the chat" |};
     streamText := fun _ =>
       inr {| fullStream :=
                {| SwitchableStream.chunks :=
                     [ {| text := Some "ab"; textDelta := None |};
                       {| text := None; textDelta := Some "" |};
                       {| text := None; textDelta := Some "c" |} ];
                   SwitchableStream.ending := SwitchableStream.EndOfData |};
              finish := Some {| finishReason := reason;
                                usage := Some {| completionTokens := Some 10;
                                                 promptTokens := Some 20;
                                                 totalTokens := Some 30 |} |} |} |}.

(** Collaborators whose summary reports 2^53 completion tokens and whose
    generator reports one more. *)
Definition largeUsageEnv : Env :=
  {| getFilePaths := getFilePaths (sampleEnv 200 "stop");
     fetch := fetch (sampleEnv 200 "stop");
     createSummary := fun _ =>
       {| finished := [Some {| completionTokens := Some (2 ^ 53);
                               promptTokens := None;
                               totalTokens := Some (2 ^ 53) |}];
          outcome := inr "summary of the chat" |};
     streamText := fun _ =>
       inr {| fullStream := {| SwitchableStream.chunks := [];
                               SwitchableStream.ending := SwitchableStream.EndOfData |};
              finish := Some {| finishReason := "stop";
                                usage := Some {| completionTokens := Some 1;
                                                 promptTokens := None;
                                                 totalTokens := Some 1 |} |} |} |}.

(** An open stream that forwarded one chunk and still holds a source. *)
Definition sampleStream : SwitchableStream.t Z :=
  {| SwitchableStream.output := [1];
     SwitchableStream.active :=
       Some {| SwitchableStream.chunks := [7; 8];
               SwitchableStream.ending := SwitchableStream.EndOfData |};
     SwitchableStream.phase := SwitchableStream.Open |}.

Definition sampleSource : SwitchableStream.Source Z :=
  {| SwitchableStream.chunks := [2; 3];
     SwitchableStream.ending := SwitchableStream.EndOfData |}.

(** The calls among the events of a trace, callbacks left out. *)
Fixpoint callsOf (t : list Event) : list Event :=
  match t with
  | [] => []
  | SummaryFinished _ :: rest => callsOf rest
  | Finished _ :: rest => callsOf rest
  | call :: rest => call :: callsOf rest
  end.

(** The calls a request leads to: the builder if it has a url, the summary
    if it is enabled, the generator unless the summary rejects. *)
Definition requestCalls (env : Env) (a p : Json) (b : RequestBody) : list Event :=
  (match builderConfig b with
   | Some cfg => if truthy (backendUrl cfg)
                 then [CallFetch (backendUrl cfg) (builderInit cfg (messages b))]
                 else []
   | None => []
   end
   ++ (if summaryEnabled env b then [CallCreateSummary (summaryArgs a p b)] else [])
   ++ match summaryOf env a p b with
      | inr summary => [CallStreamText (generatorArgs a p b summary)]
      | inl _ => []
      end)%list.

(** Every record marked complete comes after a record of the same label
    marked in progress; [started] holds the labels seen in progress. *)
Fixpoint staged (started : list string) (l : list ProgressAnnotation) : bool :=
  match l with
  | [] => true
  | p :: rest =>
      match status p with
      | InProgress => staged (label p :: started) rest
      | Complete => existsb (String.eqb (label p)) started && staged started rest
      end
  end.

(** The text of all the parts of a generation, in order. *)
Definition generatedText (parts : list StreamPart) : string :=
  fold_right String.append "" (map chunkOf parts).

(** The headers of the streamed response. *)
Definition responseHeaders : list (string * string) :=
  [("Content-Type", "text/plain; charset=utf-8");
   ("Transfer-Encoding", "chunked");
   ("X-Content-Type-Options", "nosniff")].

(** The kinds of annotation. *)
Definition isContextData (x : MessageAnnotation) : bool :=
  match x with ContextData _ _ => true | _ => false end.
Definition isChatSummary (x : MessageAnnotation) : bool :=
  match x with ChatSummary _ _ => true | _ => false end.
Definition isUsage (x : MessageAnnotation) : bool :=
  match x with UsageAnnotation _ => true | _ => false end.

(** Two messages, the last one without id; one file, context optimization
    on, a builder. *)
Definition anonymousBody : RequestBody :=
  {| messages := [sampleMessage "m1"; {| id := None; role := "user"; content := "hello" |}];
     files := files sampleBody;
     promptId := None;
     contextOptimization := true;
     builderConfig := Some sampleBuilder |}.

(** Two messages, no file, a builder. *)
Definition plainBuilderBody : RequestBody :=
  {| messages := messages plainBody;
     files := None;
     promptId := None;
     contextOptimization := false;
     builderConfig := Some sampleBuilder |}.

(** Collaborators whose summary rejects. *)
Definition summaryFailsEnv (error : Thrown) : Env :=
  {| getFilePaths := getFilePaths (sampleEnv 200 "stop");
     fetch := fetch (sampleEnv 200 "stop");
     createSummary := fun _ => {| finished := []; outcome := inl error |};
     streamText := streamText (sampleEnv 200 "stop") |}.

(** * The code around the handler *)

(** ** Strings of the platform *)

(** [c] occurs in [s]. *)
Fixpoint occurs (c : ascii) (s : string) : bool :=
  match s with
  | EmptyString => false
  | String x rest => Ascii.eqb x c || occurs c rest
  end.

(** [s.split(sep)] for a separator of one character: the pieces between
    the separators, of which there is always at least one. *)
Fixpoint split (sep : ascii) (s : string) : list string :=
  match s with
  | EmptyString => [EmptyString]
  | String c rest =>
      if Ascii.eqb c sep then EmptyString :: split sep rest
      else match split sep rest with
           | first :: others => String c first :: others
           | [] => [String c EmptyString]
           end
  end.

(** [l.join(sep)] *)
Fixpoint join (sep : string) (l : list string) : string :=
  match l with
  | [] => EmptyString
  | [x] => x
  | x :: rest => x ++ sep ++ join sep rest
  end.

(** The white space and line terminators of ECMAScript among the code
    points below 256, which are those a header value is made of: tab, line
    feed, vertical tab, form feed, carriage return, space and no-break
    space. *)
Definition isWhiteSpace (c : ascii) : bool :=
  match N_of_ascii c with
  | 9 | 10 | 11 | 12 | 13 | 32 | 160 => true
  | _ => false
  end%N.

Fixpoint trimStart (s : string) : string :=
  match s with
  | EmptyString => EmptyString
  | String c rest => if isWhiteSpace c then trimStart rest else s
  end.

Fixpoint trimEnd (s : string) : string :=
  match s with
  | EmptyString => EmptyString
  | String c rest =>
      match trimEnd rest with
      | EmptyString => if isWhiteSpace c then EmptyString else String c EmptyString
      | kept => String c kept
      end
  end.

(** [s.trim()] *)
Definition trim (s : string) : string := trimStart (trimEnd s).

(** ** [parseCookies] *)

Module Cookies.

(** The object [cookies], a [Record<string, string>] that starts empty:
    the assignments made, the latest first. *)
Definition Jar : Type := list (string * string).

(** [cookies[name] = value]; the name [__proto__] is the accessor of the
    prototype, which ignores a string, so that nothing is stored. *)
Definition assign (name value : string) (cookies : Jar) : Jar :=
  if String.eqb name "__proto__" then cookies else (name, value) :: cookies.

(** [cookies[name]] for a name that [Object.prototype] does not define;
    [None] is [undefined]. *)
Fixpoint lookup (name : string) (cookies : Jar) : option string :=
  match cookies with
  | [] => None
  | (n, v) :: rest => if String.eqb n name then Some v else lookup name rest
  end.

Section Parse.

(** [decodeURIComponent], which throws a [URIError] on a malformed escape
    sequence. *)
Variable decodeURIComponent : string -> Thrown + string.

(** The body of [items.forEach((item) => ...)]. *)
Definition parseItem (cookies : Jar) (item : string) : Thrown + Jar :=
  match split "=" item with
  | name :: rest =>
      if truthy name                     (* name && rest: an array is truthy *)
      then match decodeURIComponent (trim name) with
           | inl error => inl error
           | inr decodedName =>
               match decodeURIComponent (trim (join "=" rest)) with
               | inl error => inl error
               | inr decodedValue => inr (assign decodedName decodedValue cookies)
               end
           end
      else inr cookies
  | [] => inr cookies
  end.

Fixpoint forEachItem (items : list string) (cookies : Jar) : Thrown + Jar :=
  match items with
  | [] => inr cookies
  | item :: rest =>
      match parseItem cookies item with
      | inl error => inl error
      | inr cookies' => forEachItem rest cookies'
      end
  end.

Definition parseCookies (cookieHeader : string) : Thrown + Jar :=
  forEachItem (map trim (split ";" cookieHeader)) [].

(** [JSON.parse(parseCookies(cookieHeader || '')[key] || '{}')] *)
Definition cookieJson (JSON_parse : string -> Thrown + Json)
  (cookieHeader : option string) (key : string) : Thrown + Json :=
  match parseCookies (orEmpty cookieHeader) with
  | inl error => inl error
  | inr cookies =>
      JSON_parse (match lookup key cookies with
                  | Some v => if truthy v then v else "{}"
                  | None => "{}"
                  end)
  end.

End Parse.

End Cookies.

(** ** [encodeURIComponent] *)

(** The characters [encodeURIComponent] leaves as they are: letters,
    digits and [- _ . ! ~ * ' ( )]. *)
Definition unreserved (c : ascii) : bool :=
  let n := N_of_ascii c in
  ((65 <=? n) && (n <=? 90) || (97 <=? n) && (n <=? 122) || (48 <=? n) && (n <=? 57)
   || existsb (N.eqb n) [45; 95; 46; 33; 126; 42; 39; 40; 41])%N.

(** One hexadecimal digit, in upper case. *)
Definition hexDigit (n : N) : ascii :=
  ascii_of_N (if n <? 10 then 48 + n else 55 + n)%N.

(** The escape sequence of one byte. *)
Definition escape (c : ascii) : string :=
  String "%" (String (hexDigit (N_of_ascii c / 16))
                (String (hexDigit (N_of_ascii c mod 16)) EmptyString)).

(** [encodeURIComponent] on a well-formed string, held as the bytes of its
    UTF-8 encoding: a byte that is not an unreserved character is
    escaped. *)
Fixpoint encodeURIComponent (s : string) : string :=
  match s with
  | EmptyString => EmptyString
  | String c rest =>
      (if unreserved c then String c EmptyString else escape c)
      ++ encodeURIComponent rest
  end.

(** ** The prompt route *)

Module PromptApi.

(** A string of the body, as [encodeURIComponent] takes it: well-formed
    text, held as the bytes of its UTF-8 encoding, or a string with a lone
    surrogate (in JSON, an escape such as [\ud800] on its own), which is
    not empty and has no such encoding. *)
Inductive Text : Type :=
| Utf8 (bytes : string)
| LoneSurrogate.

Record PromptRequest : Type := mkPromptRequest {
  prompt : option Text;
  template : option Text;
  apiKey : option string
}.

(** A body that [request.json()] could parse: [Unreadable] when reading
    [body.prompt] raises the given [TypeError] (the body is [null]),
    [Fields] otherwise, a field that is missing being [None]. *)
Inductive PromptBody : Type :=
| Unreadable (typeError : Thrown)
| Fields (body : PromptRequest).

(** The request: its method, what [request.json()] settles to and the
    [x-api-key] header. *)
Record Request : Type := mkRequest {
  method : string;
  json : Thrown + PromptBody;
  xApiKey : option string
}.

(** What the route reads from its surroundings; [process] is there, as
    under Node. *)
Record Platform : Type := mkPlatform {
  API_KEY : option string;          (* process.env.API_KEY *)
  randomUUID : string;              (* crypto.randomUUID() *)
  now : string                      (* new Date().toISOString() *)
}.

Inductive Answer : Type :=
| Failure (status : Z) (error : string)              (* json({ error }, { status }) *)
| Success (sessionId : string) (redirectUrl : string). (* json({ success: true, .. }) *)

Inductive ConsoleEntry : Type :=
| PromptData (id : string) (prompt : Text) (template : option Text) (timestamp : string)
| ProcessingError (error : Thrown).

(** [x || y] on strings that may be absent. *)
Definition orElse (x y : option string) : option string :=
  match x with
  | Some s => if truthy s then Some s else y
  | None => y
  end.

(** Truthiness of a string of the body. *)
Definition nonEmpty (x : Text) : bool :=
  match x with
  | Utf8 s => truthy s
  | LoneSurrogate => true
  end.

(** [x], as a condition. *)
Definition present (x : option Text) : bool :=
  match x with
  | Some t => nonEmpty t
  | None => false
  end.

(** [x || null] *)
Definition orNull (x : option Text) : option Text :=
  match x with
  | Some t => if nonEmpty t then Some t else None
  | None => None
  end.

(** The bytes of a string that is there and well formed. *)
Definition bytesOf (x : option Text) : option string :=
  match x with
  | Some (Utf8 s) => Some s
  | _ => None
  end.

(** What [encodeURIComponent] throws on a lone surrogate. *)
Definition uriError : Thrown := ErrorObj "URI malformed".

(** [a !== b] *)
Definition differs (a : string) (b : option string) : bool :=
  match b with
  | Some s => negb (String.eqb a s)
  | None => true
  end.

(** The url of the answer. *)
Definition redirectUrl (prompt sessionId : string) (template : option string) : string :=
  "/new?prompt=" ++ encodeURIComponent prompt ++ "&sid=" ++ sessionId
  ++ match template with
     | Some t => if truthy t then "&template=" ++ encodeURIComponent t else ""
     | None => ""
     end.

(** The template literal of the answer on the strings of the body:
    [encodeURIComponent(body.prompt)] throws on a lone surrogate, and so
    does [encodeURIComponent(body.template)], which is called for a template
    that is not empty. *)
Definition redirectOf (prompt : Text) (sessionId : string) (template : option Text)
  : Thrown + string :=
  match prompt, template with
  | LoneSurrogate, _ => inl uriError
  | Utf8 _, Some LoneSurrogate => inl uriError
  | Utf8 p, _ => inr (redirectUrl p sessionId (bytesOf template))
  end.

(** The [try] block of the route, once the body is parsed; an exception
    of the template literal is caught by the [catch] of the route, after
    [promptData] was logged. *)
Definition answerBody (platform : Platform) (request : Request) (body : PromptRequest)
  : Answer * list ConsoleEntry :=
  match prompt body with
  | Some p =>
      if nonEmpty p
      then
        let apiKey := orElse (xApiKey request) (apiKey body) in
        if match API_KEY platform with
           | Some expected => truthy expected && differs expected apiKey
           | None => false
           end
        then (Failure 401 "Unauthorized", [])
        else
          let sessionId := randomUUID platform in
          let promptData := PromptData sessionId p (orNull (template body)) (now platform) in
          match redirectOf p sessionId (template body) with
          | inr url => (Success sessionId url, [promptData])
          | inl error =>
              (Failure 400 "Invalid request body", [promptData; ProcessingError error])
          end
      else (Failure 400 "Prompt is required", [])
  | None => (Failure 400 "Prompt is required", [])
  end.

(** The route. *)
Definition action (platform : Platform) (request : Request) : Answer * list ConsoleEntry :=
  if negb (String.eqb (method request) "POST")
  then (Failure 405 "Method not allowed", [])
  else
    match json request with
    | inl error => (Failure 400 "Invalid request body", [ProcessingError error])
    | inr (Unreadable typeError) =>
        (Failure 400 "Invalid request body", [ProcessingError typeError])
    | inr (Fields body) => answerBody platform request body
    end.

End PromptApi.


(** Reading an escaped text back; the inverse of [encodeURIComponent] on
    what it produces. *)
Definition unhex (c : ascii) : N :=
  let n := N_of_ascii c in (if n <? 58 then n - 48 else n - 55)%N.

Definition unescape (high low : ascii) : ascii :=
  ascii_of_N (16 * unhex high + unhex low).

Fixpoint unescapeAll (s : string) : string :=
  match s with
  | EmptyString => EmptyString
  | String c rest =>
      if Ascii.eqb c "%"
      then match rest with
           | String high (String low rest') => String (unescape high low) (unescapeAll rest')
           | _ => String c (unescapeAll rest)
           end
      else String c (unescapeAll rest)
  end.

(** The key the route compares with the expected one. *)
Definition providedKey (request : PromptApi.Request) (body : PromptApi.PromptRequest)
  : option string :=
  PromptApi.orElse (PromptApi.xApiKey request) (PromptApi.apiKey body).


(** ** API keys from the key vault *)

Module KeyVault.

(** What the Azure SDK answers: the two constructors, and [getSecret] by
    secret name, whose [value] may be undefined. *)
Record Azure : Type := mkAzure {
  newCredential : Thrown + unit;                 (* new DefaultAzureCredential() *)
  newSecretClient : string -> Thrown + unit;     (* new SecretClient(keyVaultUrl, credential) *)
  getSecret : string -> Thrown + option string   (* (await secretClient.getSecret(name)).value *)
}.

Inductive ConsoleEntry : Type :=
| Loaded                      (* console.log('Successfully loaded API keys ...') *)
| Failed (error : Thrown).    (* console.error('Failed to initialize ...', error) *)

(** The process: the assignments made to [process.env], the latest first,
    and the console. *)
Record Process : Type := mkProcess {
  env : list (string * string);
  console : list ConsoleEntry
}.

(** [process.env[name]] *)
Fixpoint getEnv (name : string) (e : list (string * string)) : option string :=
  match e with
  | [] => None
  | (n, v) :: rest => if String.eqb n name then Some v else getEnv name rest
  end.

(** [process.env[name] = value]: the value is converted to a string, so
    that an undefined value is stored as the text "undefined". *)
Definition setEnv (name : string) (value : option string) (e : list (string * string))
  : list (string * string) :=
  (name, match value with
         | Some s => s
         | None => "undefined"
         end) :: e.

(** The [try] block: both secrets are fetched before either variable is
    assigned. *)
Definition fetchBoth (azure : Azure) (keyVaultUrl : string)
  : Thrown + (option string * option string) :=
  match newCredential azure with
  | inl error => inl error
  | inr _ =>
      match newSecretClient azure keyVaultUrl with
      | inl error => inl error
      | inr _ =>
          match getSecret azure "ANTHROPIC-CLAUDE" with
          | inl error => inl error
          | inr anthropicSecret =>
              match getSecret azure "OPENAI-API-KEY" with
              | inl error => inl error
              | inr openAiSecret => inr (anthropicSecret, openAiSecret)
              end
          end
      end
  end.

Definition initializeApiKeysFromKeyVault (azure : Azure) (keyVaultUrl : string)
  (p : Process) : Completion unit * Process :=
  match fetchBoth azure keyVaultUrl with
  | inr (anthropicSecret, openAiSecret) =>
      (Normal tt,
       {| env := setEnv "OPENAI_API_KEY" openAiSecret
                   (setEnv "ANTHROPIC_API_KEY" anthropicSecret (env p));
          console := console p ++ [Loaded] |})
  | inl error =>
      (Throws error, {| env := env p; console := console p ++ [Failed error] |})
  end.

End KeyVault.

(** ** Samples for the routes *)

(** A decoder that fails on a lone percent sign and else changes nothing. *)
Definition sampleDecode (s : string) : Thrown + string :=
  if occurs "%" s then inl (ErrorObj "URI malformed") else inr s.

Definition samplePlatform : PromptApi.Platform :=
  {| PromptApi.API_KEY := Some "secret";
     PromptApi.randomUUID := "0b0e3f0c-5d1c-4f6e-9a52-2f1d6a7c8e90";
     PromptApi.now := "2025-01-01T00:00:00.000Z" |}.

(** A POST without key. *)
Definition sampleProposal : PromptApi.Request :=
  {| PromptApi.method := "POST";
     PromptApi.json := inr (PromptApi.Fields {| PromptApi.prompt := Some (PromptApi.Utf8 "a b&c");
                                                PromptApi.template := None;
                                                PromptApi.apiKey := None |});
     PromptApi.xApiKey := None |}.

(** No key is expected. *)
Definition openPlatform : PromptApi.Platform :=
  {| PromptApi.API_KEY := None;
     PromptApi.randomUUID := PromptApi.randomUUID samplePlatform;
     PromptApi.now := PromptApi.now samplePlatform |}.

(** A POST whose prompt is a lone surrogate. *)
Definition surrogateProposal : PromptApi.Request :=
  {| PromptApi.method := "POST";
     PromptApi.json := inr (PromptApi.Fields {| PromptApi.prompt := Some PromptApi.LoneSurrogate;
                                                PromptApi.template := None;
                                                PromptApi.apiKey := None |});
     PromptApi.xApiKey := None |}.

(** * Properties *)

(** ** The switchable stream *)

Section StreamFacts.
Context {A : Type}.
Import SwitchableStream.

Lemma close_idempotent (s : t A) : close (close s) = close s.
Proof. unfold close. simpl. destruct (phase s); reflexivity. Qed.

Lemma forward_closed (s : t A) : forward (close s) = None.
Proof. unfold forward, close. simpl. destruct (phase s); reflexivity. Qed.

Lemma forward_idle (s : t A) : active s = None -> forward s = None.
Proof.
  intros Hnone. unfold forward. rewrite Hnone. destruct (phase s); reflexivity.
Qed.

Lemma forwards_idle (s s' : t A) : active s = None -> forwards s s' -> s' = s.
Proof.
  intros Hnone Hrun. destruct Hrun as [s | s s1 s2 Hstep _].
  - reflexivity.
  - rewrite (forward_idle s Hnone) in Hstep. discriminate.
Qed.

(** Forwarding from an open stream only ever adds a prefix of what its
    active source holds. *)
Lemma forwards_prefix (s s' : t A) :
  forwards s s' ->
  forall src, phase s = Open -> active s = Some src ->
  exists k, output s' = (output s ++ firstn k (chunks src))%list.
Proof.
  induction 1 as [s | s s1 s2 Hstep Hrun IH]; intros src Hopen Hact.
  - exists 0%nat. simpl. now rewrite app_nil_r.
  - unfold forward in Hstep. rewrite Hopen, Hact in Hstep.
    destruct (chunks src) as [| c rest] eqn:Hchunks;
      injection Hstep as <-.
    + apply forwards_idle in Hrun; [| reflexivity]. subst s2.
      exists 0%nat. simpl. now rewrite app_nil_r.
    + destruct (IH {| chunks := rest; ending := ending src |} eq_refl eq_refl)
        as [k Hk].
      exists (S k). rewrite Hk. simpl. now rewrite <- app_assoc.
Qed.

Lemma pump_source (cs : list A) (e : Ending) (out : list A) :
  pump (S (List.length cs))
       {| output := out; active := Some {| chunks := cs; ending := e |}; phase := Open |}
  = {| output := (out ++ cs)%list; active := None; phase := settle e |}.
Proof.
  revert out. induction cs as [| c cs IH]; intros out.
  - simpl. now rewrite app_nil_r.
  - change (pump (S (List.length (c :: cs))) ?s)
      with (pump (S (List.length cs))
              {| output := (out ++ [c])%list;
                 active := Some {| chunks := cs; ending := e |};
                 phase := Open |}).
    rewrite IH, <- app_assoc. reflexivity.
Qed.

Lemma forwards_pump (n : nat) (s : t A) : forwards s (pump n s).
Proof.
  revert s. induction n as [| n IH]; intros s; simpl.
  - apply forwards_refl.
  - destruct (forward s) as [s' |] eqn:Hstep.
    + eapply forwards_step; [exact Hstep | apply IH].
    + apply forwards_refl.
Qed.

Lemma drain_switchSource (s : t A) (newSource : Source A) :
  phase s = Open ->
  drain (switchSource newSource s)
  = {| output := (output s ++ chunks newSource)%list;
       active := None;
       phase := settle (ending newSource) |}.
Proof.
  intros Hopen. unfold drain, pending, switchSource. simpl.
  rewrite Hopen. destruct newSource as [cs e]. apply pump_source.
Qed.

End StreamFacts.

(** C1.  On an open stream, [switchSource newSource] leaves what was
    forwarded from earlier sources as it is; at every later moment the
    output is the old output followed by the chunks of [newSource] read so
    far, whatever the previous source still held; and once [newSource] is
    read to its end the output is exactly the old output followed by all
    the chunks of [newSource], each once and in order. *)
Theorem switchSource_keeps_then_appends
  (A : Type) (s : SwitchableStream.t A) (newSource : SwitchableStream.Source A) :
  SwitchableStream.phase s = SwitchableStream.Open ->
  SwitchableStream.output (SwitchableStream.switchSource newSource s)
  = SwitchableStream.output s
  /\ (forall s', SwitchableStream.forwards (SwitchableStream.switchSource newSource s) s' ->
      exists k, SwitchableStream.output s'
                = (SwitchableStream.output s
                   ++ firstn k (SwitchableStream.chunks newSource))%list)
  /\ SwitchableStream.output (SwitchableStream.drain (SwitchableStream.switchSource newSource s))
     = (SwitchableStream.output s ++ SwitchableStream.chunks newSource)%list
  /\ SwitchableStream.forwards (SwitchableStream.switchSource newSource s)
       (SwitchableStream.drain (SwitchableStream.switchSource newSource s)).
Proof.
  intros Hopen. split; [reflexivity |]. split; [| split].
  - intros s' Hrun.
    apply (forwards_prefix Hrun (src := newSource)); [exact Hopen | reflexivity].
  - rewrite (drain_switchSource s newSource Hopen). reflexivity.
  - apply forwards_pump.
Qed.

(** On [sampleStream], whose source still holds 7 and 8, a switch to the
    source of 2 and 3 gives 1, 2, 3. *)
Lemma switchSource_keeps_then_appends_witness :
  SwitchableStream.phase sampleStream = SwitchableStream.Open
  /\ SwitchableStream.output
       (SwitchableStream.drain (SwitchableStream.switchSource sampleSource sampleStream))
     = [1; 2; 3].
Proof.
  split; [reflexivity |].
  exact (proj1 (proj2 (proj2
           (@switchSource_keeps_then_appends Z sampleStream sampleSource eq_refl)))).
Defined.

(** ** Invariants of the handler's effects *)

Section Preservation.
Variable I : State -> Prop.

Lemma preserves_ret {A} (a : A) : preserves I (ret a).
Proof. intros s Hs. exact Hs. Qed.

Lemma preserves_throw {A} (e : Thrown) : preserves I (@throw A e).
Proof. intros s Hs. exact Hs. Qed.

Lemma preserves_await {A} (p : Thrown + A) : preserves I (await p).
Proof. destruct p; [apply preserves_throw | apply preserves_ret]. Qed.

Lemma preserves_gets {A} (f : State -> A) : preserves I (gets f).
Proof. intros s Hs. exact Hs. Qed.

Lemma preserves_modify (f : State -> State) :
  (forall s, I s -> I (f s)) -> preserves I (modify f).
Proof. intros Hf s Hs. apply Hf, Hs. Qed.

Lemma preserves_bind {A B} (m : M A) (k : A -> M B) :
  preserves I m -> (forall a, preserves I (k a)) -> preserves I (bind m k).
Proof.
  intros Hm Hk s Hs. unfold bind. specialize (Hm s Hs).
  destruct (m s) as [[a | e] s']; simpl in *.
  - apply Hk, Hm.
  - exact Hm.
Qed.

Lemma preserves_tryCatch {A} (body : M A) (handler : Thrown -> M A) :
  preserves I body -> (forall e, preserves I (handler e)) ->
  preserves I (tryCatch body handler).
Proof.
  intros Hb Hh s Hs. unfold tryCatch. specialize (Hb s Hs).
  destruct (body s) as [[a | e] s']; simpl in *.
  - exact Hb.
  - apply Hh, Hb.
Qed.

Lemma preserves_forEach {A} (f : A -> M unit) (l : list A) :
  (forall a, preserves I (f a)) -> preserves I (forEach f l).
Proof.
  intros Hf. induction l as [| a l IH]; simpl.
  - apply preserves_ret.
  - apply preserves_bind; [apply Hf | intros _; exact IH].
Qed.

(** An invariant that does not read the logger, the trace, the running
    usage or the switchable stream, that no annotation, merged part or
    error part disturbs, and that every progress record keeps, is kept by
    the whole handler. *)
Hypothesis I_log : forall e s, I s -> I (pushLog e s).
Hypothesis I_event : forall c s, I s -> I (pushEvent c s).
Hypothesis I_usage : forall u s, I s -> I (setCumulativeUsage u s).
Hypothesis I_stream : forall st s, I s -> I (setStream st s).
Hypothesis I_annotation : forall a s, I s -> I (pushDataStream (Annotation a) s).
Hypothesis I_merged : forall ps s, I s -> I (pushDataStream (Merged ps) s).
Hypothesis I_error : forall e s, I s -> I (pushDataStream (ErrorPart e) s).
Hypothesis I_progress : forall l st m, preserves I (writeProgress l st m).

Ltac keep_step :=
  lazymatch goal with
  | |- preserves _ (ret _) => apply preserves_ret
  | |- preserves _ (throw _) => apply preserves_throw
  | |- preserves _ (await _) => apply preserves_await
  | |- preserves _ (gets _) => apply preserves_gets
  | |- preserves _ (writeProgress _ _ _) => apply I_progress
  | |- preserves _ (bind _ _) => apply preserves_bind; [| intros ?]
  | |- preserves _ (tryCatch _ _) => apply preserves_tryCatch; [| intros ?]
  | |- preserves _ (forEach _ _) => apply preserves_forEach; intros ?
  | |- preserves _ (modify _) =>
      apply preserves_modify; intros ? ?;
      first [ apply I_log | apply I_event | apply I_usage | apply I_stream
            | apply I_annotation | apply I_merged | apply I_error ];
      assumption
  | |- preserves _ (match ?x with _ => _ end) => destruct x
  end.

Ltac keep := repeat keep_step.

Lemma preserves_builderStage env cfg ms : preserves I (builderStage env cfg ms).
Proof.
  unfold builderStage, builderTry, builderCatch, callFetch, log,
    writeMessageAnnotation.
  keep.
Qed.

Lemma preserves_summaryOnFinish u : preserves I (summaryOnFinish u).
Proof. unfold summaryOnFinish, log, accumulate. keep. Qed.

Lemma preserves_summaryStage env a p b : preserves I (summaryStage env a p b).
Proof.
  unfold summaryStage, callCreateSummary, writeMessageAnnotation, log.
  keep. apply preserves_summaryOnFinish.
Qed.

Lemma preserves_onFinish ev : preserves I (onFinish ev).
Proof. unfold onFinish, writeMessageAnnotation, log, accumulate. keep. Qed.

Lemma preserves_execute env a p b : preserves I (execute env a p b).
Proof.
  unfold execute, callStreamText, switchSource. keep.
  - apply preserves_builderStage.
  - apply preserves_summaryStage.
Qed.

Lemma preserves_createDataStream env a p b :
  preserves I (createDataStream env a p b).
Proof.
  unfold createDataStream, completion. keep.
  - apply preserves_execute.
  - apply preserves_onFinish.
Qed.

Lemma builderAction_invariant env request :
  I initialState -> I (finalState env request).
Proof.
  intros H0. unfold finalState, builderAction.
  destruct (json request) as [e | j]; [exact H0 |].
  destruct (cookieApiKeys request) as [e | a]; [exact H0 |].
  destruct (cookieProviders request) as [e | p]; [exact H0 |].
  assert (Hrun : preserves I (tryCatch (builderActionTry env a p j) builderActionCatch)).
  { unfold builderActionTry, builderActionCatch, log. keep.
    apply preserves_createDataStream. }
  specialize (Hrun initialState H0).
  destruct (tryCatch _ _ initialState) as [[r | e] s]; exact Hrun.
Qed.

End Preservation.

(** ** The progress counter *)

Lemma progressRecords_app (l1 l2 : list DataPart) :
  progressRecords (l1 ++ l2) = (progressRecords l1 ++ progressRecords l2)%list.
Proof.
  induction l1 as [| p l1 IH]; simpl; [reflexivity |].
  destruct p; simpl; now rewrite IH.
Qed.

Lemma progressOrders_app (l1 l2 : list DataPart) :
  progressOrders (l1 ++ l2) = (progressOrders l1 ++ progressOrders l2)%list.
Proof. unfold progressOrders. now rewrite progressRecords_app, map_app. Qed.

Lemma countUp_S (n : nat) : countUp (S n) = (countUp n ++ [Z.of_nat n + 1])%list.
Proof.
  unfold countUp. rewrite seq_S, map_app. simpl. do 2 f_equal. lia.
Qed.

Lemma seq_sorted (a n : nat) : StronglySorted Z.lt (map Z.of_nat (seq a n)).
Proof.
  revert a. induction n as [| n IH]; intros a; simpl; constructor.
  - apply IH.
  - apply Forall_forall. intros x Hx.
    apply in_map_iff in Hx. destruct Hx as [k [<- Hk]].
    apply in_seq in Hk. lia.
Qed.

Lemma countUp_sorted (n : nat) : StronglySorted Z.lt (countUp n).
Proof. apply seq_sorted. Qed.

Lemma sorted_NoDup (l : list Z) : StronglySorted Z.lt l -> NoDup l.
Proof.
  induction 1 as [| x l Hsorted IH Hall]; constructor.
  - intros Hin. rewrite Forall_forall in Hall. specialize (Hall x Hin). lia.
  - exact IH.
Qed.

Lemma countUp_length (n : nat) : List.length (countUp n) = n.
Proof. unfold countUp. now rewrite length_map, length_seq. Qed.

Lemma contiguous_writeProgress l st m : preserves contiguous (writeProgress l st m).
Proof.
  intros s [n [Hord Hctr]]. exists (S n). simpl. split.
  - rewrite progressOrders_app, Hord, countUp_S. simpl. now rewrite Hctr.
  - rewrite Hctr. lia.
Qed.

Lemma contiguous_dataStream_other (p : DataPart) (s : State) :
  progressRecords [p] = [] -> contiguous s -> contiguous (pushDataStream p s).
Proof.
  intros Hp [n [Hord Hctr]]. exists n. simpl. split; [| exact Hctr].
  unfold progressOrders in *. rewrite progressRecords_app, Hp, app_nil_r. exact Hord.
Qed.

Lemma finalState_contiguous (env : Env) (request : Request) :
  contiguous (finalState env request).
Proof.
  apply builderAction_invariant;
    try (intros; now apply contiguous_dataStream_other);
    try (intros ? s [n Hn]; exists n; exact Hn).
  - apply contiguous_writeProgress.
  - exists 0%nat. split; reflexivity.
Qed.

(** C9.  The orders of the progress records a request emits are exactly
    1, 2, ..., n, without a gap, whichever optional stages ran; the counter
    ends at n + 1, having moved once for each record. *)
Theorem progress_orders_contiguous (env : Env) (request : Request) :
  exists n : nat,
    progressOrders (dataStream (finalState env request)) = countUp n
    /\ List.length (progressRecords (dataStream (finalState env request))) = n
    /\ progressCounter (finalState env request) = Z.of_nat n + 1.
Proof.
  destruct (finalState_contiguous env request) as [n [Hord Hctr]].
  exists n. split; [exact Hord |]. split; [| exact Hctr].
  apply (f_equal (@List.length Z)) in Hord.
  unfold progressOrders in Hord.
  now rewrite length_map, countUp_length in Hord.
Qed.

(** C2.  The orders of the progress records of a request are strictly
    increasing and start at 1; no order occurs twice; and the counter of the
    request ends one above the number of records, so it was never set
    back. *)
Theorem progress_orders_increasing (env : Env) (request : Request) :
  let orders := progressOrders (dataStream (finalState env request)) in
  StronglySorted Z.lt orders
  /\ (forall first rest, orders = first :: rest -> first = 1)
  /\ NoDup orders
  /\ progressCounter (finalState env request) = 1 + Z.of_nat (List.length orders).
Proof.
  intros orders. subst orders.
  destruct (finalState_contiguous env request) as [n [-> Hctr]].
  repeat split.
  - apply countUp_sorted.
  - intros first rest Heq. destruct n as [| n]; [discriminate |].
    unfold countUp in Heq. simpl in Heq. now injection Heq as <- _.
  - apply sorted_NoDup, countUp_sorted.
  - rewrite countUp_length, Hctr. lia.
Qed.

(** ** Running the handler symbolically *)

Lemma forEach_summaryOnFinish (l : list (option UsageReport)) (s : State) :
  forEach summaryOnFinish l s
  = (Normal tt,
     {| progressCounter := progressCounter s;
        cumulativeUsage := fold_left (fun t r => addReport r t) l (cumulativeUsage s);
        dataStream := dataStream s;
        stream := stream s;
        logger := logger s ++ summaryLogs l;
        trace := trace s ++ map SummaryFinished l |}).
Proof.
  revert s. induction l as [| r l IH]; intros s.
  - destruct s. simpl. now rewrite !app_nil_r.
  - simpl forEach. unfold bind at 1.
    destruct r as [u |]; cbn -[forEach]; rewrite IH; cbn; now rewrite <- ?app_assoc.
Qed.

(** Unfolding of the handler down to its effects on the state. *)
Ltac unfold_handler :=
  cbv beta iota zeta delta
    [bind ret throw tryCatch await gets modify
     writeProgress postIncrement writeData writeMessageAnnotation log
     callFetch callStreamText callCreateSummary
     builderStage builderTry builderCatch summaryStage
     onFinish accumulate switchSource completion execute createDataStream onError
     builderActionTry builderActionCatch builderAction finalState
     pushLog pushEvent pushDataStream setStream setCumulativeUsage
     setProgressCounter initialState
     progressCounter cumulativeUsage dataStream stream logger trace
     finished outcome finish finishReason usage
     fst snd negb Z.add Pos.add Pos.succ].

(** One case distinction on what a collaborator answers. *)
Ltac run_step :=
  match goal with
  | |- context [builderConfig ?b] => destruct (builderConfig b) as [? |] eqn:?
  | |- context [fetch ?e ?u ?i] => destruct (fetch e u i) as [? | ?] eqn:?
  | |- context [BuilderResponse.ok ?r] => destruct (BuilderResponse.ok r) eqn:?
  | |- context [BuilderResponse.json ?r] =>
      destruct (BuilderResponse.json r) as [? | ?] eqn:?
  | |- context [summaryEnabled ?e ?b] => destruct (summaryEnabled e b) eqn:?
  | |- context [createSummary ?e ?a] =>
      destruct (createSummary e a) as [? [? | ?]] eqn:?
  | |- context [forEach summaryOnFinish ?l ?s] => rewrite (forEach_summaryOnFinish l s)
  | |- context [streamText ?e ?a] =>
      destruct (streamText e a) as [? | [? [[? ?] |]]] eqn:?
  | |- context [String.eqb ?r "length"] => destruct (String.eqb r "length") eqn:?
  | |- context [match ?u with Some _ => _ | None => _ end] => is_var u; destruct u
  | |- context [if truthy ?u then _ else _] => destruct (truthy u) eqn:?
  end.

Ltac run := unfold_handler; repeat (run_step; unfold_handler); cbn [app].

(** Entering the handler with a well-formed request. *)
Ltac enter request :=
  unfold finalState, builderAction;
  destruct (json request) as [? | [? | ?]]; try discriminate;
  destruct (cookieApiKeys request) as [? | ?]; try discriminate;
  destruct (cookieProviders request) as [? | ?]; try discriminate.

(** Going through the members of a data stream that was computed. *)
Ltac members H :=
  repeat (simpl in H; rewrite ?in_app_iff in H;
          match type of H with
          | _ \/ _ => destruct H as [H | H]
          | False => destruct H
          | In _ (map _ _) => apply in_map_iff in H; destruct H as [? [H _]]
          end);
  try discriminate H.

(** ** Optional stages *)

(** C6.  Without a builder url (no builder configuration, or one whose
    [backendUrl] is empty) no progress record labelled "builder" and no
    builder result annotation is written; and when the file references are
    empty (no path is found in an empty file map) or context optimization
    is off, no progress record labelled "summary" and no chat summary
    annotation is written. *)
Theorem skipped_stage_leaves_no_record (env : Env) (request : Request) (b : RequestBody) :
  bodyOf request = Some b ->
  ((forall cfg, builderConfig b = Some cfg -> backendUrl cfg = "") ->
   (forall p, In (Data p) (dataStream (finalState env request)) -> label p <> "builder")
   /\ (forall su c, ~ In (Annotation (ContextData su c)) (dataStream (finalState env request))))
  /\ (getFilePaths env [] = [] ->
      filesOrEmpty b = [] \/ contextOptimization b = false ->
      (forall p, In (Data p) (dataStream (finalState env request)) -> label p <> "summary")
      /\ (forall su c, ~ In (Annotation (ChatSummary su c)) (dataStream (finalState env request)))).
Proof.
  unfold bodyOf. intros Hb. split.
  - intros Hno. enter request.
    all: try (simpl; split; intros; tauto).
    injection Hb as ->. unfold tryCatch, builderActionTry, createDataStream, execute.
    destruct (builderConfig b) as [cfg |] eqn:Hcfg;
      [rewrite (Hno cfg eq_refl); cbn [truthy] |]; run.
    all: split; [intros q Hq | intros su c Hq]; members Hq;
      injection Hq as <-; discriminate.
  - intros Hnil Hoff.
    assert (Hskip : summaryEnabled env b = false).
    { unfold summaryEnabled. destruct Hoff as [-> | ->].
      - rewrite Hnil. reflexivity.
      - apply andb_false_r. }
    enter request.
    all: try (simpl; split; intros; tauto).
    injection Hb as ->. unfold tryCatch, builderActionTry, createDataStream, execute.
    rewrite Hskip. run.
    all: split; [intros q Hq | intros su c Hq]; members Hq;
      injection Hq as <-; discriminate.
Qed.


(** The plain request has neither stage. *)
Lemma skipped_stage_leaves_no_record_witness :
  bodyOf (requestOf plainBody) = Some plainBody
  /\ forall p, In (Data p) (dataStream (finalState (sampleEnv 200 "stop") (requestOf plainBody))) ->
       label p <> "builder".
Proof.
  split; [reflexivity |].
  refine (proj1 (proj1 (@skipped_stage_leaves_no_record
                          (sampleEnv 200 "stop") (requestOf plainBody) plainBody eq_refl)
                   _)).
  intros cfg Hcfg. discriminate Hcfg.
Defined.

(** ** The truncation marker *)

Lemma messageSliceId_max (ms : Messages) :
  messageSliceId ms = Z.max 0 (Z.of_nat (List.length ms) - 3).
Proof.
  unfold messageSliceId.
  destruct (Z.ltb_spec 3 (Z.of_nat (List.length ms))); lia.
Qed.

(** C7.  Every call of the generator made for a request carries
    [messageSliceId = max(0, messageCount - 3)]: 2 for five messages, 0 for
    two. *)
Theorem generator_messageSliceId
  (env : Env) (request : Request) (b : RequestBody) (args : StreamTextArgs) :
  bodyOf request = Some b ->
  In (CallStreamText args) (trace (finalState env request)) ->
  genMessageSliceId args = Z.max 0 (Z.of_nat (List.length (messages b)) - 3)
  /\ (List.length (messages b) = 5%nat -> genMessageSliceId args = 2)
  /\ (List.length (messages b) = 2%nat -> genMessageSliceId args = 0).
Proof.
  unfold bodyOf. intros Hb Hcall.
  assert (Hid : genMessageSliceId args = messageSliceId (messages b)).
  { revert Hcall. enter request.
    all: try (simpl; tauto).
    injection Hb as ->. run.
    all: intros Hcall; members Hcall; injection Hcall as <-; reflexivity. }
  rewrite Hid, messageSliceId_max.
  repeat split; intros ->; reflexivity.
Qed.


(** Five messages: the generator is called with 2. *)
Lemma generator_messageSliceId_witness :
  bodyOf (requestOf sampleBody) = Some sampleBody
  /\ In (CallStreamText (generatorArgs (JsonText "{}") (JsonText "{}") sampleBody
                           (Some "summary of the chat")))
        (trace (finalState (sampleEnv 200 "stop") (requestOf sampleBody)))
  /\ genMessageSliceId (generatorArgs (JsonText "{}") (JsonText "{}") sampleBody
                          (Some "summary of the chat")) = 2.
Proof.
  split; [reflexivity |]. split; [vm_compute; tauto |].
  refine (proj1 (proj2 (@generator_messageSliceId
                          (sampleEnv 200 "stop") (requestOf sampleBody) sampleBody _
                          eq_refl _)) eq_refl).
  vm_compute; tauto.
Defined.

(** ** Chat identifiers of the annotations *)

Lemma sliceLast_lastOf {A} (l : list A) : nth_error (sliceLast l) 0 = lastOf l.
Proof.
  unfold sliceLast. induction l as [| x l IH]; [reflexivity |].
  destruct l as [| y l]; [reflexivity |].
  simpl in IH |- *. rewrite Nat.sub_0_r in IH. exact IH.
Qed.

Lemma lastMessageId_lastOf (ms : Messages) :
  lastMessageId ms = match lastOf ms with
                     | Some m => id m
                     | None => None
                     end.
Proof. unfold lastMessageId. now rewrite sliceLast_lastOf. Qed.

(** C10.  The builder result annotation, which is written whenever the
    builder stage runs and its call succeeds, has the id of the last message
    as [chatId], and the empty string when there is no message or the last
    one has no id.  The chat summary annotation, which is written whenever
    the summary stage runs and [createSummary] resolves, carries the id of
    the last message as it is, without fallback: in those two cases its
    [chatId] is absent. *)
Theorem builder_annotation_chatId
  (env : Env) (request : Request) (b : RequestBody) (a p : Json) :
  parsed request b a p ->
  let ds := dataStream (finalState env request) in
  let lastId := match lastOf (messages b) with
                | Some m => id m
                | None => None
                end in
  (forall cfg r data,
      builderConfig b = Some cfg ->
      truthy (backendUrl cfg) = true ->
      fetch env (backendUrl cfg) (builderInit cfg (messages b)) = inr r ->
      BuilderResponse.ok r = true ->
      BuilderResponse.json r = inr data ->
      In (Annotation (ContextData (JSON_stringify data) (orEmpty lastId))) ds)
  /\ (forall su c, In (Annotation (ContextData su c)) ds -> c = orEmpty lastId)
  /\ (forall su,
      summaryEnabled env b = true ->
      outcome (createSummary env (summaryArgs a p b)) = inr su ->
      In (Annotation (ChatSummary su lastId)) ds)
  /\ (forall su c, In (Annotation (ChatSummary su c)) ds -> c = lastId)
  /\ (messages b = [] -> orEmpty lastId = "" /\ lastId = None)
  /\ (forall m, lastOf (messages b) = Some m -> id m = None ->
      orEmpty lastId = "" /\ lastId = None)
  /\ (forall m i, lastOf (messages b) = Some m -> id m = Some i ->
      orEmpty lastId = i /\ lastId = Some i).
Proof.
  intros (Hj & Ha & Hp) ds lastId.
  subst ds lastId. rewrite <- lastMessageId_lastOf.
  split; [| split; [| split; [| split; [| split; [| split]]]]].
  5: { intros Hnil. rewrite lastMessageId_lastOf, Hnil. split; reflexivity. }
  5: { intros m Hm Hid. rewrite lastMessageId_lastOf, Hm, Hid. split; reflexivity. }
  5: { intros m i Hm Hid. rewrite lastMessageId_lastOf, Hm, Hid. split; reflexivity. }
  - intros cfg r data Hcfg Hurl Hfetch Hok Hjson.
    unfold finalState, builderAction; rewrite Hj, Ha, Hp;
    unfold tryCatch, builderActionTry, createDataStream, execute;
    rewrite Hcfg, Hurl; unfold builderStage, builderTry, callFetch;
    unfold_handler; rewrite Hfetch; unfold_handler; rewrite Hok; unfold_handler;
    rewrite Hjson; run.
    all: simpl; tauto.
  - unfold finalState, builderAction; rewrite Hj, Ha, Hp. run.
    all: intros su c Hin; members Hin; injection Hin as _ <-; reflexivity.
  - intros su Hen. unfold finalState, builderAction; rewrite Hj, Ha, Hp.
    unfold tryCatch, builderActionTry, createDataStream, execute.
    rewrite Hen. unfold summaryStage, callCreateSummary.
    destruct (createSummary env (summaryArgs a p b)) as [reports out] eqn:Hrun.
    cbn [outcome finished]. intros ->. run.
    all: simpl; rewrite ?in_app_iff; simpl; tauto.
  - unfold finalState, builderAction; rewrite Hj, Ha, Hp. run.
    all: intros su c Hin; members Hin; injection Hin as _ <-; reflexivity.
Qed.

(** A last message without id, with the builder answering 200 and the
    summary resolving: the builder annotation carries the empty string, the
    chat summary annotation no [chatId]. *)
Lemma builder_annotation_chatId_witness :
  parsed (requestOf anonymousBody) anonymousBody (JsonText "{}") (JsonText "{}")
  /\ In (Annotation (ContextData "{}" ""))
        (dataStream (finalState (sampleEnv 200 "stop") (requestOf anonymousBody)))
  /\ In (Annotation (ChatSummary "summary of the chat" None))
        (dataStream (finalState (sampleEnv 200 "stop") (requestOf anonymousBody))).
Proof.
  split; [repeat split |].
  pose proof (@builder_annotation_chatId
                (sampleEnv 200 "stop") (requestOf anonymousBody) anonymousBody
                (JsonText "{}") (JsonText "{}")
                (conj eq_refl (conj eq_refl eq_refl))) as (Hbuilder & _ & Hsummary & _).
  split.
  - exact (Hbuilder sampleBuilder (sampleResponse 200) (JsonText "{}")
             eq_refl eq_refl eq_refl eq_refl eq_refl).
  - exact (Hsummary "summary of the chat" eq_refl eq_refl).
Defined.

(** ** The usage total *)

Lemma usageReports_app (t1 t2 : list Event) :
  usageReports (t1 ++ t2) = (usageReports t1 ++ usageReports t2)%list.
Proof.
  induction t1 as [| e t1 IH]; simpl; [reflexivity |].
  destruct e; simpl; now rewrite IH.
Qed.

Lemma usageReports_summary (l : list (option UsageReport)) :
  usageReports (map SummaryFinished l) = l.
Proof. induction l as [| r l IH]; simpl; now rewrite ?IH. Qed.

Lemma sumField_app f (l1 l2 : list (option UsageReport)) :
  sumField f (l1 ++ l2) = sumField f l1 + sumField f l2.
Proof.
  unfold sumField. induction l1 as [| r l1 IH]; simpl; [reflexivity |].
  rewrite IH. lia.
Qed.

(** A safe integer is a double. *)
Lemma toDouble_safe (n : Z) : isSafeInteger n = true -> toDouble n = n.
Proof.
  unfold isSafeInteger, MAX_SAFE_INTEGER, toDouble. intros H.
  apply andb_prop in H as [Hlow Hhigh].
  apply Z.leb_le in Hlow, Hhigh.
  assert (Hlog : Z.log2 (Z.abs n) <= 52).
  { change 52 with (Z.log2 (2 ^ 53 - 1)). apply Z.log2_le_mono. lia. }
  destruct (Z.leb_spec (Z.log2 (Z.abs n) - 52) 0); [reflexivity | lia].
Qed.

Lemma addDouble_safe (a b : Z) : isSafeInteger (a + b) = true -> addDouble a b = a + b.
Proof. apply toDouble_safe. Qed.

(** Beyond the safe integers a sum is rounded. *)
Example addDouble_rounds :
  addDouble (2 ^ 53) 1 = 2 ^ 53 /\ addDouble (2 ^ 53 + 2) 1 = 2 ^ 53 + 4.
Proof. split; reflexivity. Qed.

Lemma usage_eta (t : Usage Z) :
  {| completionTokens := completionTokens t;
     promptTokens := promptTokens t;
     totalTokens := totalTokens t |} = t.
Proof. now destruct t. Qed.

Lemma fold_addReport (l : list (option UsageReport)) (t0 : Usage Z) :
  safeField (@completionTokens _) (completionTokens t0) l = true ->
  safeField (@promptTokens _) (promptTokens t0) l = true ->
  safeField (@totalTokens _) (totalTokens t0) l = true ->
  fold_left (fun t r => addReport r t) l t0
  = {| completionTokens := completionTokens t0 + sumField (@completionTokens _) l;
       promptTokens := promptTokens t0 + sumField (@promptTokens _) l;
       totalTokens := totalTokens t0 + sumField (@totalTokens _) l |}.
Proof.
  revert t0. induction l as [| r l IH]; intros t0 Hc Hp Ht.
  - destruct t0. unfold sumField. simpl. f_equal; lia.
  - cbn [safeField] in Hc, Hp, Ht.
    apply andb_prop in Hc as [Hc Hc']. apply andb_prop in Hc as [_ Hc].
    apply andb_prop in Hp as [Hp Hp']. apply andb_prop in Hp as [_ Hp].
    apply andb_prop in Ht as [Ht Ht']. apply andb_prop in Ht as [_ Ht].
    cbn [fold_left]. destruct r as [u |].
    + cbn [addReport reportField] in *. rewrite IH; unfold addUsage;
        cbn [completionTokens promptTokens totalTokens];
        rewrite ?addDouble_safe by assumption; try assumption.
      unfold sumField. cbn [map fold_right reportField]. f_equal; lia.
    + cbn [addReport reportField] in *. rewrite Z.add_0_r in Hc', Hp', Ht'.
      rewrite IH by assumption.
      unfold sumField. cbn [map fold_right reportField]. f_equal; lia.
Qed.

(** Within the safe integers the running total is the arithmetic sum. *)
Lemma accumulated_sum (rs : list (option UsageReport)) :
  safeReports rs = true -> accumulated rs = sumReports rs.
Proof.
  unfold safeReports, accumulated. intros H.
  apply andb_prop in H as [H Ht]. apply andb_prop in H as [Hc Hp].
  rewrite fold_addReport by assumption. reflexivity.
Qed.

Lemma accumulated_snoc (rs : list (option UsageReport)) (r : option UsageReport) :
  accumulated (rs ++ [r]) = addReport r (accumulated rs).
Proof. unfold accumulated. now rewrite fold_left_app. Qed.

(** The total written in a usage annotation is the one the callbacks have
    built from the reports they received. *)
Lemma usage_annotation_accumulated (env : Env) (request : Request) (v : Usage Z) :
  In (Annotation (UsageAnnotation v)) (dataStream (finalState env request)) ->
  v = accumulated (usageReports (trace (finalState env request))).
Proof.
  enter request.
  all: try (simpl; tauto).
  run.
  all: intros Hin; members Hin.
  all: injection Hin as <-.
  all: rewrite ?usage_eta; cbn [usageReports];
    rewrite ?usageReports_app, ?usageReports_summary; cbn [usageReports usage app];
    rewrite ?app_nil_r, ?accumulated_snoc; cbn [addReport]; reflexivity.
Qed.

(** The reports the callbacks receive are those of the stages that run. *)
Lemma trace_reports (env : Env) (request : Request) (b : RequestBody) (a p : Json) :
  parsed request b a p ->
  usageReports (trace (finalState env request)) = requestReports env a p b.
Proof.
  intros (Hj & Ha & Hp).
  unfold finalState, builderAction, requestReports, summaryOf.
  rewrite Hj, Ha, Hp. run.
  all: try congruence.
  all: cbn [usageReports]; rewrite ?usageReports_app, ?usageReports_summary;
    cbn [usageReports usage app]; rewrite ?app_nil_r; congruence.
Qed.

(** C4.  As long as the token counts reported and their sums, as they
    build up, are safe integers (so that the additions of the handler, made
    on doubles, are exact), a usage annotation on the data stream carries,
    field by field, the arithmetic sum of the usage reports of the stages
    that ran in the request: those of the summary stage if it ran, and that
    of the generation.  A stage that is skipped contributes nothing, and an
    absent report or an absent field counts for zero. *)
Theorem usage_annotation_totals
  (env : Env) (request : Request) (b : RequestBody) (a p : Json) (v : Usage Z) :
  parsed request b a p ->
  safeReports (requestReports env a p b) = true ->
  In (Annotation (UsageAnnotation v)) (dataStream (finalState env request)) ->
  v = sumReports (requestReports env a p b)
  /\ completionTokens v = sumField (@completionTokens _) (requestReports env a p b)
  /\ promptTokens v = sumField (@promptTokens _) (requestReports env a p b)
  /\ totalTokens v = sumField (@totalTokens _) (requestReports env a p b).
Proof.
  intros Hparsed Hsafe Hin.
  apply usage_annotation_accumulated in Hin.
  rewrite (trace_reports env Hparsed), (accumulated_sum _ Hsafe) in Hin.
  subst v. repeat split.
Qed.

(** Summary 1, -, 3 and generation 10, 20, 30 give 11, 20, 33. *)
Lemma usage_annotation_totals_witness :
  parsed (requestOf sampleBody) sampleBody (JsonText "{}") (JsonText "{}")
  /\ In (Annotation (UsageAnnotation {| completionTokens := 11;
                                        promptTokens := 20;
                                        totalTokens := 33 |}))
        (dataStream (finalState (sampleEnv 200 "stop") (requestOf sampleBody)))
  /\ {| completionTokens := 11; promptTokens := 20; totalTokens := 33 |}
     = sumReports (requestReports (sampleEnv 200 "stop") (JsonText "{}") (JsonText "{}")
                     sampleBody).
Proof.
  split; [repeat split |]. split; [vm_compute; tauto |].
  refine (proj1 (@usage_annotation_totals
                   (sampleEnv 200 "stop") (requestOf sampleBody) sampleBody
                   (JsonText "{}") (JsonText "{}") _
                   (conj eq_refl (conj eq_refl eq_refl)) eq_refl _)).
  vm_compute; tauto.
Defined.

(** Beyond the safe integers the total of the annotation is the rounded
    one: a summary that reports 2^53 completion tokens, then a generation
    that reports 1, give 2^53, one less than the arithmetic sum. *)
Example usage_total_beyond_safe_integers :
  In (Annotation (UsageAnnotation {| completionTokens := 2 ^ 53;
                                     promptTokens := 0;
                                     totalTokens := 2 ^ 53 |}))
     (dataStream (finalState largeUsageEnv (requestOf sampleBody)))
  /\ completionTokens (sumReports (requestReports largeUsageEnv (JsonText "{}") (JsonText "{}")
                                     sampleBody))
     = 2 ^ 53 + 1
  /\ safeReports (requestReports largeUsageEnv (JsonText "{}") (JsonText "{}") sampleBody)
     = false.
Proof. split; [vm_compute; tauto | split; reflexivity]. Qed.

(** ** A failing builder call *)

(** C5.  When the builder is configured and its call fails (the transport
    fails, the status is not 2xx, or the body is not JSON), the error is
    logged and a progress record labelled "builder", in progress, with
    the error detail as message is written as record 2.  The failure stops
    nothing: the data stream is that of the same request without builder,
    behind the two builder records and with orders moved up by two.  So the
    generator is called as soon as the summary stage, if any, returns; and
    when the generator finishes for a reason other than "length", the data
    stream ends with a usage annotation, the last of the annotations, and the
    record labelled "response", complete. *)
Theorem builder_failure_degrades
  (env : Env) (request : Request) (b : RequestBody) (a p : Json)
  (cfg : BuilderConfig) (e : Thrown) :
  parsed request b a p ->
  builderConfig b = Some cfg ->
  truthy (backendUrl cfg) = true ->
  builderFails env cfg (messages b) e ->
  let s := finalState env request in
  In (LogError "Error calling builder server" e) (logger s)
  /\ In (Data {| label := "builder"; status := InProgress; order := 2;
                 message := ("Builder server error: " ++ errorDetail e)%string |})
        (dataStream s)
  /\ dataStream s
     = (Data {| label := "builder"; status := InProgress; order := 1;
                message := "Connecting to builder server" |}
        :: Data {| label := "builder"; status := InProgress; order := 2;
                   message := ("Builder server error: " ++ errorDetail e)%string |}
        :: map (shiftOrder 2) (dataStream (finalState env (withoutBuilder request))))
  /\ (forall su,
      summaryOf env a p b = inr su ->
      In (CallStreamText (generatorArgs a p b su)) (trace s)
      /\ (exists o, In (Data {| label := "response"; status := InProgress; order := o;
                                message := "Generating Response" |}) (dataStream s))
      /\ (forall result ev,
          streamText env (generatorArgs a p b su) = inr result ->
          finish result = Some ev ->
          finishReason ev <> "length" ->
          exists v o,
            lastOf (annotations (dataStream s)) = Some (UsageAnnotation v)
            /\ lastOf (dataStream s)
               = Some (Data {| label := "response"; status := Complete; order := o;
                               message := "Response Generated" |}))).
Proof.
  intros (Hj & Ha & Hp) Hcfg Hurl Hfail s. subst s.
  unfold finalState, builderAction, withoutBuilder. cbn [json cookieApiKeys cookieProviders].
  rewrite Hj, Ha, Hp.
  set (b' := {| messages := messages b; files := files b; promptId := promptId b;
                contextOptimization := contextOptimization b; builderConfig := None |}).
  unfold tryCatch, builderActionTry, createDataStream, execute.
  change (builderConfig b') with (@None BuilderConfig).
  change (summaryEnabled env b') with (summaryEnabled env b).
  unfold summaryStage.
  change (summaryArgs a p b') with (summaryArgs a p b).
  change (generatorArgs a p b') with (generatorArgs a p b).
  change (messages b') with (messages b).
  clearbody b'. clear b'.
  rewrite Hcfg, Hurl. unfold builderStage, builderTry, callFetch, summaryOf.
  unfold_handler.
  destruct Hfail as [e Hfetch | r Hfetch Hok | r e Hfetch Hok Hjson];
    rewrite Hfetch; unfold_handler; rewrite ?Hok; unfold_handler; rewrite ?Hjson.
  all: run.
  all: split; [simpl; tauto |]; split; [simpl; tauto |]; split; [reflexivity |].
  all: intros su Hsu; try discriminate Hsu; injection Hsu as <-.
  all: split; [simpl; rewrite ?in_app_iff; simpl; tauto |].
  all: split; [eexists; simpl; repeat (first [left; reflexivity | right]) |].
  all: intros result ev;
    match goal with
    | H : streamText _ _ = _ |- _ => rewrite H
    end;
    intros Hst Hfin Hne; try discriminate Hst; injection Hst as <-.
  all: simpl in Hfin; try discriminate Hfin; injection Hfin as <-; simpl in Hne.
  all: try (exfalso; apply Hne; now apply String.eqb_eq).
  all: do 2 eexists; split; reflexivity.
Qed.


(** The builder answers 503. *)
Lemma builder_failure_degrades_witness :
  parsed (requestOf sampleBody) sampleBody (JsonText "{}") (JsonText "{}")
  /\ builderFails (sampleEnv 503 "stop") sampleBuilder (messages sampleBody)
       (ErrorObj ("Builder server returned status " ++ showZ 503)%string)
  /\ In (Data {| label := "builder"; status := InProgress; order := 2;
                 message := "Builder server error: Builder server returned status 503" |})
        (dataStream (finalState (sampleEnv 503 "stop") (requestOf sampleBody))).
Proof.
  split; [repeat split |].
  split; [apply (@non2xx (sampleEnv 503 "stop") sampleBuilder (messages sampleBody)
                   (sampleResponse 503)); reflexivity |].
  exact (proj1 (proj2 (@builder_failure_degrades
                         (sampleEnv 503 "stop") (requestOf sampleBody) sampleBody
                         (JsonText "{}") (JsonText "{}") sampleBuilder _
                         (conj eq_refl (conj eq_refl eq_refl)) eq_refl eq_refl
                         (@non2xx (sampleEnv 503 "stop") sampleBuilder (messages sampleBody)
                            (sampleResponse 503) eq_refl eq_refl)))).
Defined.

(** ** The finish reason "length" *)

(** What [onFinish] writes when the reason is not "length": the usage
    annotation with the running total, then the closing progress record. *)
Lemma onFinish_emits (ev : FinishEvent) (s : State) :
  finishReason ev <> "length" ->
  exists v,
    dataStream (snd (onFinish ev s))
    = (dataStream s
       ++ [Annotation (UsageAnnotation v);
           Data {| label := "response"; status := Complete;
                   order := progressCounter s; message := "Response Generated" |}])%list.
Proof.
  destruct ev as [reason u]. simpl. intros Hne. apply String.eqb_neq in Hne.
  unfold_handler. rewrite Hne.
  destruct u as [u |]; unfold_handler; eexists;
    rewrite <- app_assoc; reflexivity.
Qed.

(** C3.  When the generator reports the finish reason "length", [onFinish]
    adds the reported usage to the running total and returns: nothing is
    written on the data stream, the progress counter and the switchable
    stream are untouched, and the only log line is the usage line that every
    finish event gets.  The reason itself leaves no mark. *)
Theorem finish_length_is_dropped (u : option UsageReport) (s : State) :
  fst (onFinish {| finishReason := "length"; usage := u |} s) = Normal tt
  /\ dataStream (snd (onFinish {| finishReason := "length"; usage := u |} s)) = dataStream s
  /\ progressCounter (snd (onFinish {| finishReason := "length"; usage := u |} s))
     = progressCounter s
  /\ stream (snd (onFinish {| finishReason := "length"; usage := u |} s)) = stream s
  /\ logger (snd (onFinish {| finishReason := "length"; usage := u |} s))
     = (logger s ++ [LogDebugUsage "usage" u])%list.
Proof.
  destruct u as [u |]; unfold_handler; cbn; repeat split.
Qed.

(** The plain request, with a generator that stops for "length": the data
    stream holds the opening record of the response stage and the merged
    parts, and neither a usage annotation nor a closing record; the output
    ended all the same, with the text of the generator. *)
Example length_request_ends_without_records :
  progressRecords (dataStream (finalState (sampleEnv 200 "length") (requestOf plainBody)))
  = [{| label := "response"; status := InProgress; order := 1;
        message := "Generating Response" |}]
  /\ annotations (dataStream (finalState (sampleEnv 200 "length") (requestOf plainBody)))
     = []
  /\ SwitchableStream.phase (stream (finalState (sampleEnv 200 "length") (requestOf plainBody)))
     = SwitchableStream.Ended
  /\ SwitchableStream.output (stream (finalState (sampleEnv 200 "length") (requestOf plainBody)))
     = [encode "ab"; encode "c"].
Proof. repeat split. Qed.

(** ** Failures before the stream *)

(** A body whose [messages] cannot be folded is answered with the JSON
    error object and status 500; nothing was written on any stream. *)
Lemma no_messages_json_error (env : Env) (request : Request) (typeError : Thrown) (a p : Json) :
  json request = inr (NoMessages typeError) ->
  cookieApiKeys request = inr a ->
  cookieProviders request = inr p ->
  fst (builderAction env request)
  = JsonResponse 500 [("Content-Type", "application/json")] (errorDetail typeError)
  /\ dataStream (finalState env request) = []
  /\ SwitchableStream.output (stream (finalState env request)) = [].
Proof.
  intros Hj Ha Hp. unfold finalState, builderAction. rewrite Hj, Ha, Hp.
  repeat split.
Qed.

(** C8.  A request whose body is not JSON makes [request.json()] reject
    before the [try] block is entered: the handler rejects with that error
    and builds no response at all, neither the JSON error object nor a
    stream. *)
Theorem unparsable_body_rejects
  (env : Env) (error : Thrown) (apiKeys providers : Thrown + Json) :
  builderAction env {| json := inl error;
                       cookieApiKeys := apiKeys;
                       cookieProviders := providers |}
  = (Rejects error, initialState).
Proof. reflexivity. Qed.

(** * Further properties of the handler *)

(** ** The text stream *)

Lemma callsOf_app (t1 t2 : list Event) :
  callsOf (t1 ++ t2) = (callsOf t1 ++ callsOf t2)%list.
Proof.
  induction t1 as [| e t1 IH]; simpl; [reflexivity |].
  destruct e; simpl; now rewrite IH.
Qed.

Lemma callsOf_summary (l : list (option UsageReport)) :
  callsOf (map SummaryFinished l) = [].
Proof. induction l as [| r l IH]; simpl; [reflexivity | exact IH]. Qed.

Lemma encode_app (s1 s2 : string) : encode (s1 ++ s2) = (encode s1 ++ encode s2)%list.
Proof.
  unfold encode, list_byte_of_string.
  induction s1 as [| c s1 IH]; simpl; [reflexivity |]. now rewrite IH.
Qed.

(** X1.  The chunks put on the text stream, end to end, are the bytes of
    the text of the parts in order, and none of them is empty: leaving out
    the parts without text loses nothing. *)
Theorem enqueued_is_the_text (parts : list StreamPart) :
  List.concat (enqueued parts) = encode (generatedText parts)
  /\ Forall (fun chunk => chunk <> []) (enqueued parts).
Proof.
  unfold generatedText. induction parts as [| part parts [IHc IHn]]; simpl.
  - split; [reflexivity | constructor].
  - rewrite encode_app, <- IHc.
    destruct (chunkOf part) as [| c s] eqn:Hc; simpl.
    + split; [reflexivity | exact IHn].
    + split; [reflexivity |]. constructor; [discriminate | exact IHn].
Qed.

(** ** The shape of a run *)

(** What every run of a request that was read has in common. *)
Lemma handler_shape (env : Env) (request : Request) (b : RequestBody) (a p : Json) :
  parsed request b a p ->
  fst (builderAction env request) = StreamResponse responseHeaders
  /\ callsOf (trace (finalState env request)) = requestCalls env a p b
  /\ staged [] (progressRecords (dataStream (finalState env request))) = true
  /\ (List.length (filter isContextData (annotations (dataStream (finalState env request)))) <= 1
      /\ List.length (filter isChatSummary (annotations (dataStream (finalState env request)))) <= 1
      /\ List.length (filter isUsage (annotations (dataStream (finalState env request)))) <= 1)%nat
  /\ (forall v, In (UsageAnnotation v) (annotations (dataStream (finalState env request))) ->
      lastOf (annotations (dataStream (finalState env request))) = Some (UsageAnnotation v)).
Proof.
  intros (Hj & Ha & Hp).
  unfold finalState, builderAction, requestCalls, summaryOf. rewrite Hj, Ha, Hp.
  run.
  all: try congruence.
  all: split; [reflexivity |]; split;
    [ cbn [callsOf]; rewrite ?callsOf_app, ?callsOf_summary; cbn [callsOf app];
      rewrite ?app_nil_r; congruence |].
  all: split; [reflexivity |]; split; [simpl; lia |].
  all: intros v Hv; members Hv; injection Hv as <-; reflexivity.
Qed.

(** X2.  When the generator is reached and resolves, the response is the
    chunked text response, and what the switchable stream forwards is
    exactly the chunks of the text stream, whatever the builder and the
    summary did; it ends as the iteration of [fullStream] ends, so a failure
    of the iteration fails the output after the chunks read before it. *)
Theorem generated_text_is_the_body
  (env : Env) (request : Request) (b : RequestBody) (a p : Json)
  (su : option string) (result : StreamTextResult) :
  parsed request b a p ->
  summaryOf env a p b = inr su ->
  streamText env (generatorArgs a p b su) = inr result ->
  fst (builderAction env request) = StreamResponse responseHeaders
  /\ SwitchableStream.output (stream (finalState env request))
     = enqueued (SwitchableStream.chunks (fullStream result))
  /\ SwitchableStream.phase (stream (finalState env request))
     = SwitchableStream.settle (SwitchableStream.ending (fullStream result)).
Proof.
  intros (Hj & Ha & Hp). revert su result.
  unfold finalState, builderAction, summaryOf. rewrite Hj, Ha, Hp.
  run.
  all: intros su result Hsu; try discriminate Hsu; injection Hsu as <-.
  all: match goal with
       | H : streamText _ _ = _ |- _ => rewrite H
       end; intros Hst; try discriminate Hst; injection Hst as <-.
  all: rewrite drain_switchSource by reflexivity.
  all: repeat split.
Qed.

(** The sample request: the body is "ab" then "c". *)
Lemma generated_text_is_the_body_witness :
  parsed (requestOf sampleBody) sampleBody (JsonText "{}") (JsonText "{}")
  /\ SwitchableStream.output (stream (finalState (sampleEnv 503 "length") (requestOf sampleBody)))
     = [encode "ab"; encode "c"].
Proof.
  split; [repeat split |].
  exact (proj1 (proj2 (@generated_text_is_the_body
                         (sampleEnv 503 "length") (requestOf sampleBody) sampleBody
                         (JsonText "{}") (JsonText "{}") _ _
                         (conj eq_refl (conj eq_refl eq_refl)) eq_refl eq_refl))).
Defined.

Lemma summaryLogs_no_error (l : list (option UsageReport)) (text : string) (error : Thrown) :
  ~ In (LogError text error) (summaryLogs l).
Proof.
  unfold summaryLogs. intros H. apply in_flat_map in H as (r & _ & H).
  destruct r as [u |]; simpl in H; [destruct H as [H | []]; discriminate H | exact H].
Qed.

(** X3.  When the summary or the generator rejects, [execute] stops there.
    [createDataStream], which is given no [onError], writes its fixed text
    as the last part of the data stream, whatever the error was; the handler
    does not log the error either, the only error line of the log being that
    of a failed builder call.  The switchable stream is as it was created,
    with nothing forwarded, no source and its output still open, for nothing
    in the handler closes it. *)
Theorem aborted_execute_leaves_stream_untouched
  (env : Env) (request : Request) (b : RequestBody) (a p : Json) (e : Thrown) :
  parsed request b a p ->
  summaryOf env a p b = inl e
  \/ (exists su, summaryOf env a p b = inr su
                 /\ streamText env (generatorArgs a p b su) = inl e) ->
  lastOf (dataStream (finalState env request)) = Some (ErrorPart "An error occurred.")
  /\ (forall text error, In (LogError text error) (logger (finalState env request)) ->
      text = "Error calling builder server")
  /\ stream (finalState env request) = SwitchableStream.create.
Proof.
  intros (Hj & Ha & Hp).
  unfold finalState, builderAction, summaryOf. rewrite Hj, Ha, Hp.
  run.
  all: intros [Hsu | [su [Hsu Hst]]]; try discriminate Hsu; injection Hsu as <-.
  all: try (revert Hst;
    match goal with
    | H : streamText _ _ = _ |- _ => rewrite H
    end; intros Hst; try discriminate Hst; injection Hst as <-).
  all: split; [reflexivity |]; split; [| reflexivity].
  all: intros text error Hin; members Hin.
  all: try (injection Hin as <- _; reflexivity).
  all: try (exfalso; exact (summaryLogs_no_error _ _ _ Hin)).
Qed.

Lemma staged_sound (l : list ProgressAnnotation) :
  forall started, staged started l = true ->
  forall l1 p l2, l = (l1 ++ p :: l2)%list -> status p = Complete ->
  In (label p) started
  \/ exists q, In q l1 /\ label q = label p /\ status q = InProgress.
Proof.
  induction l as [| x l IH]; intros started Hs l1 p l2 Heq Hp.
  - destruct l1; discriminate Heq.
  - destruct l1 as [| y l1]; simpl in Heq; injection Heq as -> ->.
    + left. simpl in Hs. rewrite Hp in Hs. apply andb_prop in Hs as [Hs _].
      apply existsb_exists in Hs as [lab [Hin Heqb]].
      apply String.eqb_eq in Heqb. now subst lab.
    + simpl in Hs. destruct (status y) eqn:Hy.
      * destruct (IH _ Hs l1 p l2 eq_refl Hp) as [[Hhere | Hin] | [q (Hq & Hl & Hst)]].
        -- right. exists y. repeat split; [now left | exact Hhere | exact Hy].
        -- now left.
        -- right. exists q. repeat split; [now right | exact Hl | exact Hst].
      * apply andb_prop in Hs as [_ Hs].
        destruct (IH _ Hs l1 p l2 eq_refl Hp) as [Hin | [q (Hq & Hl & Hst)]].
        -- now left.
        -- right. exists q. repeat split; [now right | exact Hl | exact Hst].
Qed.

Lemma unread_request (env : Env) (request : Request) :
  (forall b a p, ~ parsed request b a p) ->
  dataStream (finalState env request) = [] /\ trace (finalState env request) = [].
Proof.
  intros Hno. unfold finalState, builderAction.
  destruct (json request) as [e | [te | b]] eqn:Hj;
    destruct (cookieApiKeys request) as [e' | a] eqn:Ha;
    destruct (cookieProviders request) as [e'' | p] eqn:Hp;
    try (split; reflexivity).
  exfalso. apply (Hno b a p). repeat split; assumption.
Qed.

Lemma read_or_not (request : Request) :
  (exists b a p, parsed request b a p) \/ (forall b a p, ~ parsed request b a p).
Proof.
  unfold parsed.
  destruct (json request) as [e | [te | b]];
    destruct (cookieApiKeys request) as [e' | a];
    destruct (cookieProviders request) as [e'' | p];
    try (right; intros b0 a0 p0 (H1 & H2 & H3); discriminate).
  left. exists b, a, p. repeat split.
Qed.

(** A request whose summary rejects with an error that has a message. *)
Lemma aborted_execute_leaves_stream_untouched_witness :
  parsed (requestOf sampleBody) sampleBody (JsonText "{}") (JsonText "{}")
  /\ summaryOf (summaryFailsEnv (ErrorObj "rate limit")) (JsonText "{}") (JsonText "{}")
       sampleBody
     = inl (ErrorObj "rate limit")
  /\ lastOf (dataStream (finalState (summaryFailsEnv (ErrorObj "rate limit"))
                           (requestOf sampleBody)))
     = Some (ErrorPart "An error occurred.")
  /\ stream (finalState (summaryFailsEnv (ErrorObj "rate limit")) (requestOf sampleBody))
     = SwitchableStream.create.
Proof.
  split; [repeat split |]. split; [reflexivity |].
  pose proof (@aborted_execute_leaves_stream_untouched
                (summaryFailsEnv (ErrorObj "rate limit")) (requestOf sampleBody) sampleBody
                (JsonText "{}") (JsonText "{}") (ErrorObj "rate limit")
                (conj eq_refl (conj eq_refl eq_refl)) (or_introl eq_refl))
    as (Hlast & _ & Hstream).
  split; assumption.
Defined.

(** X4.  On the data stream of any request, a progress record marked
    complete comes after a record of the same label marked in progress. *)
Theorem complete_follows_in_progress (env : Env) (request : Request) :
  forall before p after,
    progressRecords (dataStream (finalState env request)) = (before ++ p :: after)%list ->
    status p = Complete ->
    exists q, In q before /\ label q = label p /\ status q = InProgress.
Proof.
  intros before p after Heq Hp.
  destruct (read_or_not request) as [(b & a & pr & Hparsed) | Hno].
  - destruct (handler_shape env Hparsed) as (_ & _ & Hstaged & _).
    destruct (@staged_sound _ _ Hstaged _ _ _ Heq Hp) as [[] | Hq]. exact Hq.
  - destruct (unread_request env Hno) as [Hds _]. rewrite Hds in Heq.
    destruct before; discriminate Heq.
Qed.

(** The closing record of the sample request follows its opening record. *)
Lemma complete_follows_in_progress_witness :
  exists q,
    In q [ {| label := "builder"; status := InProgress; order := 1;
              message := "Connecting to builder server" |};
           {| label := "builder"; status := InProgress; order := 2;
              message := ("Builder server error: Builder server returned status "
                          ++ showZ 503)%string |};
           {| label := "response"; status := InProgress; order := 3;
              message := "Generating Response" |} ]
    /\ label q = "response" /\ status q = InProgress.
Proof.
  exact (@complete_follows_in_progress
           (sampleEnv 503 "stop") (requestOf plainBuilderBody)
           [ {| label := "builder"; status := InProgress; order := 1;
                message := "Connecting to builder server" |};
             {| label := "builder"; status := InProgress; order := 2;
                message := ("Builder server error: Builder server returned status "
                            ++ showZ 503)%string |};
             {| label := "response"; status := InProgress; order := 3;
                message := "Generating Response" |} ]
           {| label := "response"; status := Complete; order := 4;
              message := "Response Generated" |} [] eq_refl eq_refl).
Defined.

(** X5.  On the data stream of any request each kind of annotation occurs
    at most once, and a usage annotation, when there is one, is the last of
    the annotations. *)
Theorem annotations_at_most_once (env : Env) (request : Request) :
  (List.length (filter isContextData (annotations (dataStream (finalState env request)))) <= 1
   /\ List.length (filter isChatSummary (annotations (dataStream (finalState env request)))) <= 1
   /\ List.length (filter isUsage (annotations (dataStream (finalState env request)))) <= 1)%nat
  /\ (forall v, In (UsageAnnotation v) (annotations (dataStream (finalState env request))) ->
      lastOf (annotations (dataStream (finalState env request))) = Some (UsageAnnotation v)).
Proof.
  destruct (read_or_not request) as [(b & a & pr & Hparsed) | Hno].
  - destruct (handler_shape env Hparsed) as (_ & _ & _ & Hcount & Hlast).
    split; assumption.
  - destruct (unread_request env Hno) as [Hds _]. rewrite Hds. simpl.
    split; [lia | intros v []].
Qed.

(** X6.  The calls of a request are, in this order and each at most once:
    the builder if a url is configured, the summary if it is enabled, the
    generator unless the summary rejected.  No call is repeated, and a
    failing builder call holds back none of the later ones. *)
Theorem collaborators_called_once_in_order
  (env : Env) (request : Request) (b : RequestBody) (a p : Json) :
  parsed request b a p ->
  callsOf (trace (finalState env request)) = requestCalls env a p b.
Proof. intros Hparsed. apply (handler_shape env Hparsed). Qed.

(** The sample request makes its three calls. *)
Lemma collaborators_called_once_in_order_witness :
  parsed (requestOf sampleBody) sampleBody (JsonText "{}") (JsonText "{}")
  /\ List.length (callsOf (trace (finalState (sampleEnv 503 "stop") (requestOf sampleBody))))
     = 3%nat.
Proof.
  split; [repeat split |].
  rewrite (@collaborators_called_once_in_order
             (sampleEnv 503 "stop") (requestOf sampleBody) sampleBody
             (JsonText "{}") (JsonText "{}") (conj eq_refl (conj eq_refl eq_refl))).
  reflexivity.
Defined.

(** X7.  The answer of the handler is settled by the reading of the
    request, and no answer of the builder, the summary or the generator
    changes it.  It is the chunked text response exactly when the body is
    read with its fields as typed and both cookies are read; the JSON error
    with status 500 exactly when the cookies are read and the body is read
    but its messages cannot be folded; a rejection exactly when the body or
    one of the cookies cannot be read, with the error of the first of them.
    So no failure of a stage turns into the JSON error. *)
Theorem stages_never_change_the_response (env : Env) (request : Request) :
  (forall headers,
      fst (builderAction env request) = StreamResponse headers
      <-> headers = responseHeaders /\ exists b a p, parsed request b a p)
  /\ (forall status headers error,
      fst (builderAction env request) = JsonResponse status headers error
      <-> status = 500 /\ headers = [("Content-Type", "application/json")]
          /\ exists typeError a p,
               json request = inr (NoMessages typeError)
               /\ cookieApiKeys request = inr a
               /\ cookieProviders request = inr p
               /\ error = errorDetail typeError)
  /\ (forall e,
      fst (builderAction env request) = Rejects e
      <-> json request = inl e
          \/ exists j, json request = inr j
                       /\ (cookieApiKeys request = inl e
                           \/ exists a, cookieApiKeys request = inr a
                                        /\ cookieProviders request = inl e))
  /\ (forall env', fst (builderAction env' request) = fst (builderAction env request)).
Proof.
  pose proof (fun b a p (H : parsed request b a p) env' =>
                proj1 (handler_shape env' H)) as Hstream.
  unfold parsed in *.
  destruct (json request) as [e0 | [te | b]] eqn:Hj;
    [| destruct (cookieApiKeys request) as [e1 | a] eqn:Ha;
       [| destruct (cookieProviders request) as [e2 | p] eqn:Hp] ..].
  7: specialize (Hstream b a p (conj eq_refl (conj eq_refl eq_refl))); rewrite !Hstream.
  1-6: clear Hstream; unfold builderAction; rewrite Hj, ?Ha, ?Hp; cbn.
  all: split; [| split; [| split]]; [intros headers | intros status headers error
                                      | intros e | intros env'].
  all: try reflexivity; try (rewrite Hstream; reflexivity).
  all: split; intros H.
  all: repeat match goal with
              | H : exists _, _ |- _ => destruct H
              | H : _ /\ _ |- _ => destruct H
              | H : _ \/ _ |- _ => destruct H
              end;
    try discriminate; try congruence.
  all: injection H as ?; subst; eauto 12.
Qed.

Lemma call_in_callsOf (t : list Event) (url : string) (init : FetchInit) :
  In (CallFetch url init) t -> In (CallFetch url init) (callsOf t).
Proof.
  induction t as [| e t IH]; simpl; [tauto |].
  intros [-> | Hin]; [now left |].
  destruct e; simpl; auto.
Qed.

(** X8.  A call of the builder goes to the configured, non-empty url, as
    a POST of JSON that carries the messages of the request, and it has an
    [Authorization] header exactly when an API key that is not empty is
    configured, which the header then carries as bearer token. *)
Theorem builder_call_shape
  (env : Env) (request : Request) (b : RequestBody) (a p : Json)
  (url : string) (init : FetchInit) :
  parsed request b a p ->
  In (CallFetch url init) (trace (finalState env request)) ->
  exists cfg,
    builderConfig b = Some cfg
    /\ url = backendUrl cfg /\ url <> ""
    /\ method init = "POST"
    /\ payloadMessages (body init) = messages b
    /\ In ("Content-Type", "application/json") (headers init)
    /\ (forall v, In ("Authorization", v) (headers init) <->
                  exists key, apiKey cfg = Some key /\ key <> ""
                              /\ v = ("Bearer " ++ key)%string).
Proof.
  intros Hparsed Hin. apply call_in_callsOf in Hin.
  destruct (handler_shape env Hparsed) as (_ & Hcalls & _). rewrite Hcalls in Hin.
  unfold requestCalls in Hin.
  destruct (builderConfig b) as [cfg |]; [destruct (truthy (backendUrl cfg)) eqn:Hurl |].
  2, 3: simpl in Hin; destruct (summaryEnabled env b), (summaryOf env a p b);
    simpl in Hin; intuition discriminate.
  assert (Hcall : CallFetch (backendUrl cfg) (builderInit cfg (messages b))
                  = CallFetch url init).
  { simpl in Hin. destruct Hin as [H | Hin]; [exact H |].
    destruct (summaryEnabled env b), (summaryOf env a p b);
      simpl in Hin; intuition discriminate. }
  injection Hcall as <- <-. exists cfg.
  split; [reflexivity |]. split; [reflexivity |].
  split; [intros Hempty; rewrite Hempty in Hurl; discriminate |].
  split; [reflexivity |]. split; [reflexivity |]. split; [now left |].
  intros v. unfold builderInit, builderHeaders. simpl.
  destruct (apiKey cfg) as [key |]; [destruct key as [| c key] |]; simpl.
  - split; [intros [H | []]; discriminate H | intros (k & Hk & Hne & _)].
    injection Hk as <-. now contradiction Hne.
  - split.
    + intros [H | [H | []]]; [discriminate H |]. injection H as <-.
      exists (String c key). repeat split. discriminate.
    + intros (k & Hk & _ & ->). injection Hk as <-. right. now left.
  - split; [intros [H | []]; discriminate H | intros (k & Hk & _)]. discriminate Hk.
Qed.

(** The call of the sample request. *)
Lemma builder_call_shape_witness :
  parsed (requestOf sampleBody) sampleBody (JsonText "{}") (JsonText "{}")
  /\ In (CallFetch "http://builder.test/build" (builderInit sampleBuilder (messages sampleBody)))
        (trace (finalState (sampleEnv 200 "stop") (requestOf sampleBody)))
  /\ exists cfg,
       builderConfig sampleBody = Some cfg
       /\ "http://builder.test/build" = backendUrl cfg
       /\ "http://builder.test/build" <> ""
       /\ method (builderInit sampleBuilder (messages sampleBody)) = "POST"
       /\ payloadMessages (body (builderInit sampleBuilder (messages sampleBody)))
          = messages sampleBody
       /\ In ("Content-Type", "application/json")
             (headers (builderInit sampleBuilder (messages sampleBody)))
       /\ (forall v, In ("Authorization", v)
                        (headers (builderInit sampleBuilder (messages sampleBody))) <->
                     exists key, apiKey cfg = Some key /\ key <> ""
                                 /\ v = ("Bearer " ++ key)%string).
Proof.
  split; [repeat split |].
  assert (Hin : In (CallFetch "http://builder.test/build"
                      (builderInit sampleBuilder (messages sampleBody)))
                   (trace (finalState (sampleEnv 200 "stop") (requestOf sampleBody)))).
  { vm_compute. tauto. }
  split; [exact Hin |].
  exact (@builder_call_shape
           (sampleEnv 200 "stop") (requestOf sampleBody) sampleBody
           (JsonText "{}") (JsonText "{}") _ _
           (conj eq_refl (conj eq_refl eq_refl)) Hin).
Defined.

(** * Properties of the code around the handler *)

(** ** Splitting, joining and trimming *)

Lemma split_cons (sep : ascii) (s : string) : exists first others, split sep s = first :: others.
Proof.
  induction s as [| c s (f & o & IH)]; simpl.
  - eauto.
  - destruct (Ascii.eqb c sep); [eauto |]. rewrite IH. eauto.
Qed.

Lemma split_absent (sep : ascii) (s : string) : occurs sep s = false -> split sep s = [s].
Proof.
  induction s as [| c s IH]; simpl; [reflexivity |].
  intros H. apply orb_false_elim in H as [Hc Hs].
  rewrite Hc, (IH Hs). reflexivity.
Qed.

Lemma split_at_first (sep : ascii) (s1 s2 : string) :
  occurs sep s1 = false -> split sep (s1 ++ String sep s2) = s1 :: split sep s2.
Proof.
  induction s1 as [| c s1 IH]; simpl.
  - now rewrite Ascii.eqb_refl.
  - intros H. apply orb_false_elim in H as [Hc Hs].
    rewrite Hc, (IH Hs). reflexivity.
Qed.

Lemma join_cons (sep x y : string) (l : list string) :
  join sep (x :: y :: l) = x ++ sep ++ join sep (y :: l).
Proof. reflexivity. Qed.

Lemma join_split (sep : ascii) (s : string) : join (String sep "") (split sep s) = s.
Proof.
  induction s as [| c s IH]; [reflexivity |].
  destruct (split_cons sep s) as (f & o & Hs).
  cbn [split]. destruct (Ascii.eqb_spec c sep) as [-> | Hne].
  - rewrite Hs, join_cons, <- Hs, IH. reflexivity.
  - rewrite Hs in *. destruct o as [| x o].
    + simpl in *. now rewrite IH.
    + rewrite join_cons. rewrite join_cons in IH. rewrite <- IH. reflexivity.
Qed.

Lemma split_app (sep : ascii) (s1 s2 : string) :
  exists front l,
    split sep s1 = (front ++ [l])%list
    /\ forall f2 o2, split sep s2 = f2 :: o2 ->
       split sep (s1 ++ s2) = (front ++ (l ++ f2)%string :: o2)%list.
Proof.
  induction s1 as [| c s1 (front & l & Hs & IH)].
  - exists [], "". split; [reflexivity |]. intros f2 o2 H. simpl. exact H.
  - cbn [split append]. destruct (Ascii.eqb c sep).
    + exists ("" :: front), l. split; [now rewrite Hs |].
      intros f2 o2 H. now rewrite (IH _ _ H).
    + destruct front as [| x front].
      * exists [], (String c l). split; [now rewrite Hs |].
        intros f2 o2 H. now rewrite (IH _ _ H).
      * exists (String c x :: front), l. split; [now rewrite Hs |].
        intros f2 o2 H. now rewrite (IH _ _ H).
Qed.

Lemma append_empty_r (s : string) : s ++ "" = s.
Proof. induction s as [| c s IH]; simpl; [reflexivity | now rewrite IH]. Qed.

Lemma split_semicolon (sep : ascii) (s1 s2 : string) :
  split sep (s1 ++ String sep s2) = (split sep s1 ++ split sep s2)%list.
Proof.
  destruct (split_app sep s1 (String sep s2)) as (front & l & Hs & H).
  rewrite (H "" (split sep s2)).
  - rewrite Hs, <- app_assoc. simpl.
    now rewrite append_empty_r.
  - simpl. now rewrite Ascii.eqb_refl.
Qed.

(** *** Trimming *)

Lemma trimStart_head (s : string) (c : ascii) (rest : string) :
  trimStart s = String c rest -> isWhiteSpace c = false.
Proof.
  induction s as [| x s IH]; simpl; [discriminate |].
  destruct (isWhiteSpace x) eqn:Hx; [exact IH |].
  intros H. injection H as <- _. exact Hx.
Qed.

Lemma trimStart_idem (s : string) : trimStart (trimStart s) = trimStart s.
Proof.
  induction s as [| x s IH]; simpl; [reflexivity |].
  destruct (isWhiteSpace x) eqn:Hx; [exact IH |]. simpl. now rewrite Hx.
Qed.

Lemma trimEnd_blank (s : string) : trimEnd s = "" -> trimStart s = "".
Proof.
  induction s as [| x s IH]; simpl; [reflexivity |].
  destruct (trimEnd s) eqn:Hs; [| discriminate].
  destruct (isWhiteSpace x); [intros _; now apply IH | discriminate].
Qed.

Lemma trimStart_blank (s : string) : trimStart s = "" -> trimEnd s = "".
Proof.
  induction s as [| x s IH]; simpl; [reflexivity |].
  destruct (isWhiteSpace x) eqn:Hx; [| discriminate].
  intros H. now rewrite (IH H).
Qed.

Lemma trimEnd_idem (s : string) : trimEnd (trimEnd s) = trimEnd s.
Proof.
  induction s as [| x s IH]; simpl; [reflexivity |].
  destruct (trimEnd s) as [| y k] eqn:Hs.
  - destruct (isWhiteSpace x) eqn:Hx; simpl; [reflexivity | now rewrite Hx].
  - change (trimEnd (String x (String y k)))
      with (match trimEnd (String y k) with
            | EmptyString => if isWhiteSpace x then EmptyString else String x EmptyString
            | kept => String x kept
            end).
    now rewrite IH.
Qed.

Lemma trim_commute (s : string) : trimStart (trimEnd s) = trimEnd (trimStart s).
Proof.
  induction s as [| x s IH]; simpl; [reflexivity |].
  destruct (isWhiteSpace x) eqn:Hx.
  - destruct (trimEnd s) as [| y k] eqn:Hs.
    + simpl. now rewrite (trimEnd_blank s Hs).
    + rewrite <- IH. simpl. now rewrite Hx.
  - destruct (trimEnd s) as [| y k] eqn:Hs; simpl; now rewrite Hx, ?Hs.
Qed.

Lemma trimEnd_barrier (a b : string) (c : ascii) :
  isWhiteSpace c = false -> trimEnd (a ++ String c b) = a ++ String c (trimEnd b).
Proof.
  intros Hc. induction a as [| x a IH].
  - simpl. destruct (trimEnd b); [now rewrite Hc | reflexivity].
  - cbn [append trimEnd]. rewrite IH. destruct a; reflexivity.
Qed.

Lemma trimStart_barrier (a b : string) (c : ascii) :
  isWhiteSpace c = false -> trimStart (a ++ String c b) = trimStart a ++ String c b.
Proof.
  intros Hc. induction a as [| x a IH]; simpl.
  - now rewrite Hc.
  - destruct (isWhiteSpace x); [exact IH | reflexivity].
Qed.

Lemma trim_idem (s : string) : trim (trim s) = trim s.
Proof.
  unfold trim. rewrite (trim_commute (trimStart (trimEnd s))), trimStart_idem.
  now rewrite <- trim_commute, trimEnd_idem.
Qed.

Lemma trim_trimStart (s : string) : trim (trimStart s) = trim s.
Proof. unfold trim. now rewrite trim_commute, trimStart_idem, <- trim_commute. Qed.

Lemma trim_trimEnd (s : string) : trim (trimEnd s) = trim s.
Proof. unfold trim. now rewrite trimEnd_idem. Qed.

Lemma truthy_trimStart (s : string) : truthy (trimStart s) = truthy (trim s).
Proof.
  unfold trim. rewrite trim_commute.
  destruct (trimStart s) as [| c rest] eqn:Hs; [reflexivity |].
  pose proof (trimStart_head s Hs) as Hc.
  simpl. destruct (trimEnd rest); [now rewrite Hc | reflexivity].
Qed.

Lemma occurs_app (c : ascii) (s1 s2 : string) :
  occurs c (s1 ++ s2) = occurs c s1 || occurs c s2.
Proof.
  induction s1 as [| x s1 IH]; simpl; [reflexivity |].
  now rewrite IH, orb_assoc.
Qed.

Lemma occurs_trimStart (c : ascii) (s : string) :
  occurs c s = false -> occurs c (trimStart s) = false.
Proof.
  induction s as [| x s IH]; simpl; [reflexivity |].
  intros H. apply orb_false_elim in H as [Hx Hs].
  destruct (isWhiteSpace x); [now apply IH | simpl; now rewrite Hx, Hs].
Qed.

Lemma occurs_trimEnd (c : ascii) (s : string) :
  occurs c s = false -> occurs c (trimEnd s) = false.
Proof.
  induction s as [| x s IH]; simpl; [reflexivity |].
  intros H. apply orb_false_elim in H as [Hx Hs]. specialize (IH Hs).
  destruct (trimEnd s); [destruct (isWhiteSpace x) |]; simpl in *;
    rewrite ?Hx; try reflexivity; exact IH.
Qed.

Lemma occurs_trim (c : ascii) (s : string) : occurs c s = false -> occurs c (trim s) = false.
Proof. intros H. unfold trim. now apply occurs_trimStart, occurs_trimEnd. Qed.

Section CookieFacts.
Variable decode : string -> Thrown + string.

(** X9.  A header that is one cookie [name=value] gives the one entry of
    the decoded, trimmed name and the decoded, trimmed value; equal signs
    inside the value are kept, white space around name and value does not
    count, and an item whose name is blank is left out without being
    decoded. *)
Theorem cookie_pair (name value : string) :
  occurs ";" name = false ->
  occurs "=" name = false ->
  occurs ";" value = false ->
  Cookies.parseCookies decode (name ++ "=" ++ value)
  = if truthy (trim name)
    then match decode (trim name) with
         | inl error => inl error
         | inr n =>
             match decode (trim value) with
             | inl error => inl error
             | inr v => inr (Cookies.assign n v [])
             end
         end
    else inr [].
Proof.
  intros Hn1 Hn2 Hv.
  unfold Cookies.parseCookies. rewrite split_absent.
  2: { rewrite occurs_app. simpl. now rewrite Hn1, Hv. }
  cbn [map Cookies.forEachItem]. unfold Cookies.parseItem.
  assert (Htrim : trim (name ++ "=" ++ value) = trimStart name ++ String "=" (trimEnd value)).
  { unfold trim. change (name ++ "=" ++ value) with (name ++ String "=" value).
    rewrite trimEnd_barrier by reflexivity. now rewrite trimStart_barrier by reflexivity. }
  rewrite Htrim, split_at_first by now apply occurs_trimStart.
  rewrite truthy_trimStart, trim_trimStart, join_split, trim_trimEnd.
  destruct (truthy (trim name)); [| reflexivity].
  destruct (decode (trim name)); [reflexivity |].
  destruct (decode (trim value)); reflexivity.
Qed.


(** X10.  A header that is one item without an equal sign gives the entry
    of that name with the decoded empty string as value. *)
Theorem cookie_without_value (item : string) :
  occurs ";" item = false ->
  occurs "=" item = false ->
  Cookies.parseCookies decode item
  = if truthy (trim item)
    then match decode (trim item) with
         | inl error => inl error
         | inr n =>
             match decode "" with
             | inl error => inl error
             | inr v => inr (Cookies.assign n v [])
             end
         end
    else inr [].
Proof.
  intros Hs He.
  unfold Cookies.parseCookies. rewrite split_absent by exact Hs.
  cbn [map Cookies.forEachItem]. unfold Cookies.parseItem.
  rewrite split_absent by now apply occurs_trim.
  rewrite trim_idem. cbn [join]. change (trim "") with "".
  destruct (truthy (trim item)); [| reflexivity].
  destruct (decode (trim item)); [reflexivity |].
  destruct (decode ""); reflexivity.
Qed.


Lemma parseItem_frame (item : string) (cookies : Cookies.Jar) :
  Cookies.parseItem decode cookies item
  = match Cookies.parseItem decode [] item with
    | inl error => inl error
    | inr added => inr (added ++ cookies)%list
    end.
Proof.
  unfold Cookies.parseItem, Cookies.assign.
  destruct (split "=" item) as [| name rest]; [reflexivity |].
  destruct (truthy name); [| reflexivity].
  destruct (decode (trim name)) as [e | n]; [reflexivity |].
  destruct (decode (trim (join "=" rest))) as [e | v]; [reflexivity |].
  destruct (String.eqb n "__proto__"); reflexivity.
Qed.

Lemma forEachItem_frame (items : list string) (cookies : Cookies.Jar) :
  Cookies.forEachItem decode items cookies
  = match Cookies.forEachItem decode items [] with
    | inl error => inl error
    | inr added => inr (added ++ cookies)%list
    end.
Proof.
  revert cookies. induction items as [| item items IH]; intros cookies; simpl.
  - reflexivity.
  - rewrite (parseItem_frame item cookies).
    destruct (Cookies.parseItem decode [] item) as [e | added]; [reflexivity |].
    rewrite (IH (added ++ cookies)%list), (IH added).
    destruct (Cookies.forEachItem decode items []) as [e | more]; [reflexivity |].
    now rewrite app_assoc.
Qed.

Lemma forEachItem_app (l1 l2 : list string) (cookies : Cookies.Jar) :
  Cookies.forEachItem decode (l1 ++ l2) cookies
  = match Cookies.forEachItem decode l1 cookies with
    | inl error => inl error
    | inr cookies' => Cookies.forEachItem decode l2 cookies'
    end.
Proof.
  revert cookies. induction l1 as [| item l1 IH]; intros cookies; simpl.
  - reflexivity.
  - destruct (Cookies.parseItem decode cookies item); [reflexivity | apply IH].
Qed.

Lemma lookup_app (name : string) (j2 j1 : Cookies.Jar) :
  Cookies.lookup name (j2 ++ j1)%list
  = match Cookies.lookup name j2 with
    | Some v => Some v
    | None => Cookies.lookup name j1
    end.
Proof.
  induction j2 as [| [n v] j2 IH]; simpl; [reflexivity |].
  destruct (String.eqb n name); [reflexivity | exact IH].
Qed.

Lemma parseCookies_app (h1 h2 : string) :
  Cookies.parseCookies decode (h1 ++ ";" ++ h2)
  = match Cookies.parseCookies decode h1 with
    | inl error => inl error
    | inr first =>
        match Cookies.parseCookies decode h2 with
        | inl error => inl error
        | inr second => inr (second ++ first)%list
        end
    end.
Proof.
  unfold Cookies.parseCookies.
  change (h1 ++ ";" ++ h2) with (h1 ++ String ";" h2).
  rewrite split_semicolon, map_app, forEachItem_app.
  destruct (Cookies.forEachItem decode (map trim (split ";" h1)) []) as [e | first];
    [reflexivity |].
  apply forEachItem_frame.
Qed.

(** X11.  A header [h1;h2] is parsed as [h1] and then [h2] on top of it:
    an exception in either is the exception of the whole, and in the result
    a name of [h2] hides the same name of [h1] while the other names of [h1]
    stay. *)
Theorem cookies_in_sequence (h1 h2 : string) :
  Cookies.parseCookies decode (h1 ++ ";" ++ h2)
  = match Cookies.parseCookies decode h1 with
    | inl error => inl error
    | inr first =>
        match Cookies.parseCookies decode h2 with
        | inl error => inl error
        | inr second => inr (second ++ first)%list
        end
    end
  /\ forall first second name,
       Cookies.lookup name (second ++ first)%list
       = match Cookies.lookup name second with
         | Some v => Some v
         | None => Cookies.lookup name first
         end.
Proof.
  split; [apply parseCookies_app | intros; apply lookup_app].
Qed.

(** X12.  One cookie that cannot be decoded, wherever it stands in the
    header, makes the reading of any cookie as JSON throw that error, before
    [JSON.parse] is called. *)
Theorem undecodable_cookie_fails_every_lookup
  (JSON_parse : string -> Thrown + Json) (h1 h2 : string) (error : Thrown) (key : string) :
  Cookies.parseCookies decode h1 = inl error
  \/ ((exists first, Cookies.parseCookies decode h1 = inr first)
      /\ Cookies.parseCookies decode h2 = inl error) ->
  Cookies.cookieJson decode JSON_parse (Some (h1 ++ ";" ++ h2)) key = inl error.
Proof.
  unfold Cookies.cookieJson. cbn [orEmpty]. rewrite parseCookies_app.
  intros [-> | [[first ->] ->]]; reflexivity.
Qed.


End CookieFacts.

(** The value keeps its equal sign. *)
Lemma cookie_pair_witness :
  occurs ";" " apiKeys" = false
  /\ occurs "=" " apiKeys" = false
  /\ occurs ";" "a=b " = false
  /\ Cookies.parseCookies sampleDecode " apiKeys=a=b " = inr [("apiKeys", "a=b")].
Proof.
  split; [reflexivity |]. split; [reflexivity |]. split; [reflexivity |].
  exact (@cookie_pair sampleDecode " apiKeys" "a=b " eq_refl eq_refl eq_refl).
Defined.

(** A flag. *)
Lemma cookie_without_value_witness :
  occurs ";" "flag" = false
  /\ occurs "=" "flag" = false
  /\ Cookies.parseCookies sampleDecode "flag" = inr [("flag", "")].
Proof.
  split; [reflexivity |]. split; [reflexivity |].
  exact (@cookie_without_value sampleDecode "flag" eq_refl eq_refl).
Defined.

(** A stray percent sign in an unrelated cookie. *)
Lemma undecodable_cookie_fails_every_lookup_witness :
  ((exists first, Cookies.parseCookies sampleDecode "apiKeys={}" = inr first)
   /\ Cookies.parseCookies sampleDecode "theme=50%" = inl (ErrorObj "URI malformed"))
  /\ Cookies.cookieJson sampleDecode (fun s => inr (JsonText s))
       (Some "apiKeys={};theme=50%") "apiKeys"
     = inl (ErrorObj "URI malformed").
Proof.
  assert (H : (exists first, Cookies.parseCookies sampleDecode "apiKeys={}" = inr first)
              /\ Cookies.parseCookies sampleDecode "theme=50%" = inl (ErrorObj "URI malformed")).
  { split; [eexists |]; reflexivity. }
  split; [exact H |].
  exact (@undecodable_cookie_fails_every_lookup sampleDecode (fun s => inr (JsonText s))
           "apiKeys={}" "theme=50%" (ErrorObj "URI malformed") "apiKeys" (or_intror H)).
Defined.

(** *** The word count of the log *)

Lemma splitLength_pieces (s : string) :
  splitLength s = Z.of_nat (List.length (split " " s)).
Proof.
  induction s as [| c s IH]; [reflexivity |].
  cbn [splitLength split]. rewrite IH.
  destruct (split_cons " " s) as (f & o & Hs). rewrite Hs.
  destruct (Ascii.eqb c " "); cbn [List.length]; lia.
Qed.

Lemma splitLength_app (a b : string) :
  splitLength (a ++ b) = splitLength a + splitLength b - 1.
Proof.
  induction a as [| c a IH]; cbn [append splitLength]; [lia |]. rewrite IH. lia.
Qed.

Lemma splitLength_fold (ms : Messages) (acc : string) :
  splitLength (fold_left (fun a m => (a ++ content m)%string) ms acc)
  = splitLength acc + fold_right Z.add 0 (map (fun m => splitLength (content m) - 1) ms).
Proof.
  revert acc. induction ms as [| m ms IH]; intros acc; cbn [fold_left map fold_right]; [lia |].
  rewrite IH, splitLength_app. lia.
Qed.

(** X18.  The number of words the handler logs is one more than the
    number of spaces in all the contents: the contents are joined without a
    separator, so the words on both sides of a message boundary count as
    one, and the count is 1 for no message at all.  For one content the
    count is the number of pieces between spaces. *)
Theorem logged_word_count (ms : Messages) :
  splitLength (totalMessageContent ms)
  = 1 + fold_right Z.add 0 (map (fun m => splitLength (content m) - 1) ms)
  /\ (forall m, splitLength (content m) = Z.of_nat (List.length (split " " (content m))))
  /\ 1 <= splitLength (totalMessageContent ms).
Proof.
  unfold totalMessageContent. rewrite splitLength_fold.
  split; [reflexivity |]. split; [intros m; apply splitLength_pieces |].
  assert (H : forall l : Messages,
            0 <= fold_right Z.add 0 (map (fun m => splitLength (content m) - 1) l)).
  { induction l as [| m l IH]; cbn [map fold_right]; [lia |].
    rewrite splitLength_pieces.
    destruct (split_cons " " (content m)) as (f & o & Hs). rewrite Hs.
    cbn [List.length]. lia. }
  specialize (H ms). change (splitLength "") with 1. lia.
Qed.

(** ** The prompt route *)


#[local] Arguments String.eqb : simpl never.

(** Whether the key check of the route lets the request through. *)
Lemma key_check (platform : PromptApi.Platform) (key : option string) :
  match PromptApi.API_KEY platform with
  | Some expected => truthy expected && PromptApi.differs expected key
  | None => false
  end = false
  <-> forall expected, PromptApi.API_KEY platform = Some expected ->
                       expected = "" \/ key = Some expected.
Proof.
  destruct (PromptApi.API_KEY platform) as [[| x expected] |]; simpl.
  - split; [intros _ ex Hex; injection Hex as <-; now left | reflexivity].
  - destruct key as [k |]; simpl.
    + destruct (String.eqb_spec (String x expected) k) as [Heq | Hneq]; simpl.
      * split; [intros _ ex Hex; injection Hex as <-; right; now rewrite Heq | reflexivity].
      * split; [discriminate | intros H].
        destruct (H _ eq_refl) as [H' | H']; [discriminate H' |].
        injection H' as H'. now contradiction Hneq.
    + split; [discriminate | intros H].
      destruct (H _ eq_refl) as [H' | H']; discriminate H'.
  - split; [intros _ ex Hex; discriminate Hex | reflexivity].
Qed.

Lemma truthy_nonempty (s : string) : truthy s = true <-> s <> "".
Proof. destruct s; simpl; split; congruence. Qed.

(** X13.  The prompt route answers with success exactly for a POST whose
    body has a prompt that is not empty, whose prompt and template hold no
    lone surrogate and, when [API_KEY] is set and not empty, whose key (the
    [x-api-key] header, else the [apiKey] of the body) equals it; the answer
    then carries the session id and the redirect url of that prompt. *)
Theorem prompt_success_iff
  (platform : PromptApi.Platform) (request : PromptApi.Request) (sid url : string) :
  fst (PromptApi.action platform request) = PromptApi.Success sid url
  <-> PromptApi.method request = "POST"
      /\ exists body p,
           PromptApi.json request = inr (PromptApi.Fields body)
           /\ PromptApi.prompt body = Some (PromptApi.Utf8 p) /\ p <> ""
           /\ PromptApi.template body <> Some PromptApi.LoneSurrogate
           /\ (forall expected, PromptApi.API_KEY platform = Some expected ->
                                 expected = "" \/ providedKey request body = Some expected)
           /\ sid = PromptApi.randomUUID platform
           /\ url = PromptApi.redirectUrl p sid (PromptApi.bytesOf (PromptApi.template body)).
Proof.
  unfold PromptApi.action, PromptApi.answerBody, providedKey.
  destruct (String.eqb_spec (PromptApi.method request) "POST") as [Hm | Hm]; simpl.
  2: { split; [discriminate | intros [H _]; contradiction]. }
  destruct (PromptApi.json request) as [e | [te | body]]; simpl.
  1, 2: split; [discriminate | intros (_ & b & p & H & _); discriminate].
  pose proof (key_check platform
                (PromptApi.orElse (PromptApi.xApiKey request) (PromptApi.apiKey body)))
    as Hkey.
  destruct (PromptApi.prompt body) as [[p |] |] eqn:Hp; simpl.
  3: { split; [discriminate | intros (_ & b & p & H & Hp' & _)].
       injection H as <-. congruence. }
  2: { split.
       - destruct (match PromptApi.API_KEY platform with
                   | Some expected => _
                   | None => false
                   end); simpl; discriminate.
       - intros (_ & b & q & H & Hq & _). injection H as <-. congruence. }
  destruct p as [| c p]; simpl.
  { split; [discriminate | intros (_ & b & q & H & Hq & Hne & _)].
    injection H as <-. rewrite Hp in Hq. injection Hq as <-. now contradiction Hne. }
  destruct (match PromptApi.API_KEY platform with
            | Some expected => _
            | None => false
            end); simpl.
  { split; [discriminate | intros (_ & b & q & H & _ & _ & _ & Hauth & _)].
    injection H as <-. apply Hkey in Hauth. discriminate Hauth. }
  destruct (PromptApi.template body) as [[t |] |] eqn:Ht; simpl.
  2: { split; [discriminate | intros (_ & b & q & H & _ & _ & Hwf & _)].
       injection H as <-. now contradiction Hwf. }
  all: split.
  all: try (intros H; injection H as <- <-; split; [exact Hm |];
            exists body, (String c p); rewrite Ht;
            repeat split; try assumption; try discriminate; now apply Hkey).
  all: intros (_ & b & q & H & Hq & _ & _ & _ & -> & ->);
    injection H as <-; rewrite Hp in Hq; injection Hq as <-; rewrite Ht; reflexivity.
Qed.

Ltac each_byte c := destruct c as [[] [] [] [] [] [] [] []].

Lemma unreserved_plain (c : ascii) :
  unreserved c = true -> Ascii.eqb c "%" = false /\ Ascii.eqb c "&" = false.
Proof. each_byte c; intros H; try discriminate H; split; reflexivity. Qed.

Lemma escape_plain (c : ascii) : occurs "&" (escape c) = false.
Proof. each_byte c; reflexivity. Qed.

Lemma unescape_escape (c : ascii) :
  unescape (hexDigit (N_of_ascii c / 16)) (hexDigit (N_of_ascii c mod 16)) = c.
Proof. each_byte c; reflexivity. Qed.

Lemma append_assoc (a b c : string) : (a ++ b) ++ c = a ++ (b ++ c).
Proof. induction a as [| x a IH]; simpl; [reflexivity | now rewrite IH]. Qed.

Lemma encoded_has_no_ampersand (s : string) : occurs "&" (encodeURIComponent s) = false.
Proof.
  induction s as [| c s IH]; simpl; [reflexivity |].
  rewrite occurs_app, IH, orb_false_r.
  destruct (unreserved c) eqn:Hc; [| apply escape_plain].
  simpl. destruct (unreserved_plain c Hc) as [_ ->]. reflexivity.
Qed.

Lemma unescapeAll_encode (s : string) : unescapeAll (encodeURIComponent s) = s.
Proof.
  induction s as [| c s IH]; [reflexivity |].
  cbn [encodeURIComponent]. destruct (unreserved c) eqn:Hc.
  - cbn [append unescapeAll]. destruct (unreserved_plain c Hc) as [-> _].
    now rewrite IH.
  - unfold escape. cbn [append unescapeAll]. rewrite Ascii.eqb_refl.
    now rewrite unescape_escape, IH.
Qed.

(** X16.  [encodeURIComponent] loses nothing: two texts with the same
    encoding are the same text. *)
Theorem encodeURIComponent_injective (s1 s2 : string) :
  encodeURIComponent s1 = encodeURIComponent s2 -> s1 = s2.
Proof.
  intros H. apply (f_equal unescapeAll) in H.
  now rewrite !unescapeAll_encode in H.
Qed.

Lemma encodeURIComponent_injective_witness :
  encodeURIComponent "a b&c" = "a%20b%26c"
  /\ forall s, encodeURIComponent s = "a%20b%26c" -> s = "a b&c".
Proof.
  split; [reflexivity |].
  intros s Hs. exact (@encodeURIComponent_injective s "a b&c" Hs).
Defined.

(** X15.  Cut at its ampersands, the redirect url is the prompt parameter,
    the session parameter and, for a template that is not empty, the
    template parameter, and nothing else: no character of the prompt or of
    the template adds a parameter. *)
Theorem redirect_parameters (p sid : string) (template : option string) :
  occurs "&" sid = false ->
  split "&" (PromptApi.redirectUrl p sid template)
  = ("/new?prompt=" ++ encodeURIComponent p)
    :: match template with
       | Some t => if truthy t
                   then ["sid=" ++ sid; "template=" ++ encodeURIComponent t]
                   else ["sid=" ++ sid]
       | None => ["sid=" ++ sid]
       end.
Proof.
  intros Hsid. unfold PromptApi.redirectUrl.
  assert (Hplain : split "&" ("sid=" ++ sid) = ["sid=" ++ sid]).
  { apply split_absent. rewrite occurs_app, Hsid. reflexivity. }
  assert (Hhead : forall rest,
            split "&" ("/new?prompt=" ++ encodeURIComponent p ++ "&sid=" ++ sid ++ rest)
            = ("/new?prompt=" ++ encodeURIComponent p) :: split "&" ("sid=" ++ sid ++ rest)).
  { intros rest. rewrite <- append_assoc.
    change ("&sid=" ++ sid ++ rest) with (String "&" ("sid=" ++ sid ++ rest)).
    apply split_at_first. rewrite occurs_app, encoded_has_no_ampersand. reflexivity. }
  rewrite Hhead. f_equal.
  assert (Hlast : forall t,
            split "&" ("sid=" ++ sid ++ "&template=" ++ encodeURIComponent t)
            = ["sid=" ++ sid; "template=" ++ encodeURIComponent t]).
  { intros t. rewrite <- append_assoc.
    change ("&template=" ++ encodeURIComponent t)
      with (String "&" ("template=" ++ encodeURIComponent t)).
    rewrite split_at_first by (rewrite occurs_app, Hsid; reflexivity).
    f_equal. apply split_absent. rewrite occurs_app, encoded_has_no_ampersand. reflexivity. }
  destruct template as [t |]; [destruct (truthy t) |].
  - apply Hlast.
  - now rewrite append_empty_r.
  - now rewrite append_empty_r.
Qed.

(** A prompt with an ampersand. *)
Lemma redirect_parameters_witness :
  occurs "&" "sid-1" = false
  /\ split "&" (PromptApi.redirectUrl "a b&c" "sid-1" (Some "vite"))
     = ["/new?prompt=a%20b%26c"; "sid=sid-1"; "template=vite"].
Proof.
  split; [reflexivity |].
  exact (@redirect_parameters "a b&c" "sid-1" (Some "vite") eq_refl).
Defined.

(** X14.  A failure of the prompt route has one of five causes, tried in
    this order: a method other than POST (405, the body is not read), a
    body that cannot be read (400), a missing prompt (400), a key that does
    not match when one is expected (401), and a lone surrogate in the prompt
    or in the template, on which [encodeURIComponent] throws after the
    prompt data was logged (400, with the text of an unreadable body). *)
Theorem prompt_failure_causes
  (platform : PromptApi.Platform) (request : PromptApi.Request) (status : Z) (error : string) :
  fst (PromptApi.action platform request) = PromptApi.Failure status error ->
  (status = 405 /\ error = "Method not allowed"
   /\ PromptApi.method request <> "POST"
   /\ snd (PromptApi.action platform request) = [])
  \/ (status = 400 /\ error = "Invalid request body"
      /\ PromptApi.method request = "POST"
      /\ exists e, (PromptApi.json request = inl e
                    \/ PromptApi.json request = inr (PromptApi.Unreadable e))
                   /\ snd (PromptApi.action platform request) = [PromptApi.ProcessingError e])
  \/ (status = 400 /\ error = "Prompt is required"
      /\ PromptApi.method request = "POST"
      /\ exists body, PromptApi.json request = inr (PromptApi.Fields body)
                      /\ PromptApi.present (PromptApi.prompt body) = false)
  \/ (status = 401 /\ error = "Unauthorized"
      /\ PromptApi.method request = "POST"
      /\ exists body expected,
           PromptApi.json request = inr (PromptApi.Fields body)
           /\ PromptApi.present (PromptApi.prompt body) = true
           /\ PromptApi.API_KEY platform = Some expected
           /\ expected <> ""
           /\ providedKey request body <> Some expected)
  \/ (status = 400 /\ error = "Invalid request body"
      /\ PromptApi.method request = "POST"
      /\ exists body text,
           PromptApi.json request = inr (PromptApi.Fields body)
           /\ PromptApi.prompt body = Some text
           /\ PromptApi.nonEmpty text = true
           /\ (forall expected, PromptApi.API_KEY platform = Some expected ->
                                 expected = "" \/ providedKey request body = Some expected)
           /\ (text = PromptApi.LoneSurrogate
               \/ PromptApi.template body = Some PromptApi.LoneSurrogate)
           /\ snd (PromptApi.action platform request)
              = [PromptApi.PromptData (PromptApi.randomUUID platform) text
                   (PromptApi.orNull (PromptApi.template body)) (PromptApi.now platform);
                 PromptApi.ProcessingError PromptApi.uriError]).
Proof.
  unfold PromptApi.action, PromptApi.answerBody, providedKey.
  destruct (String.eqb_spec (PromptApi.method request) "POST") as [Hm | Hm]; simpl.
  2: { intros H. injection H as <- <-. left. repeat split. exact Hm. }
  destruct (PromptApi.json request) as [e | [te | body]]; simpl.
  1, 2: intros H; injection H as <- <-; right; left; repeat split; try exact Hm;
    eexists; split; [eauto | reflexivity].
  pose proof (key_check platform
                (PromptApi.orElse (PromptApi.xApiKey request) (PromptApi.apiKey body)))
    as Hkey.
  destruct (PromptApi.prompt body) as [text |] eqn:Hp; simpl.
  2: { intros H; injection H as <- <-; right; right; left; repeat split; try exact Hm.
       exists body; rewrite Hp; split; reflexivity. }
  destruct (PromptApi.nonEmpty text) eqn:Hne.
  2: { intros H; injection H as <- <-; right; right; left; repeat split; try exact Hm.
       exists body; rewrite Hp; split; [reflexivity | exact Hne]. }
  destruct (match PromptApi.API_KEY platform with
            | Some expected => _
            | None => false
            end) eqn:Hcheck; simpl.
  - intros H. injection H as <- <-. right; right; right; left. repeat split; try exact Hm.
    destruct (PromptApi.API_KEY platform) as [expected |] eqn:Hk; [| discriminate Hcheck].
    apply andb_prop in Hcheck as [Hex Hdiff].
    exists body, expected. rewrite Hp. repeat split; try assumption.
    + now apply truthy_nonempty.
    + intros Heq. rewrite Heq in Hdiff. simpl in Hdiff.
      now rewrite String.eqb_refl in Hdiff.
  - clear Hcheck. pose proof (proj1 Hkey eq_refl) as Hcheck.
    destruct text as [p |]; [destruct (PromptApi.template body) as [[t |] |] eqn:Ht |];
      simpl; try discriminate.
    all: intros H; injection H as <- <-; right; right; right; right;
      repeat split; try exact Hm.
    + exists body, (PromptApi.Utf8 p). rewrite Ht. repeat split; try assumption. now right.
    + exists body, PromptApi.LoneSurrogate. repeat split; try assumption. now left.
Qed.

(** A prompt that is a lone surrogate, no key being expected. *)
Lemma prompt_failure_causes_witness :
  fst (PromptApi.action openPlatform surrogateProposal)
  = PromptApi.Failure 400 "Invalid request body"
  /\ exists body text,
       PromptApi.json surrogateProposal = inr (PromptApi.Fields body)
       /\ PromptApi.prompt body = Some text
       /\ PromptApi.nonEmpty text = true.
Proof.
  split; [reflexivity |].
  destruct (@prompt_failure_causes openPlatform surrogateProposal 400 "Invalid request body"
              eq_refl)
    as [(H & _) | [(_ & _ & _ & e & [H | H] & _) | [(_ & H & _) | [(H & _) | H]]]];
    try discriminate H.
  destruct H as (_ & _ & _ & body & text & Hj & Hp & Hne & _).
  exists body, text. repeat split; assumption.
Defined.

(** ** The key vault *)

(** X17.  Loading the API keys from the key vault is all or nothing: when
    it throws, whichever step failed, no variable of the environment has
    changed and the error thrown is the one that was logged; when it
    returns, both secrets were fetched and both variables are set, the
    other variables being as before. *)
Theorem key_vault_all_or_nothing
  (azure : KeyVault.Azure) (keyVaultUrl : string) (p : KeyVault.Process) :
  let run := KeyVault.initializeApiKeysFromKeyVault azure keyVaultUrl p in
  (forall error,
      fst run = Throws error ->
      KeyVault.env (snd run) = KeyVault.env p
      /\ KeyVault.console (snd run) = (KeyVault.console p ++ [KeyVault.Failed error])%list)
  /\ (fst run = Normal tt ->
      exists anthropic openAi,
        KeyVault.getSecret azure "ANTHROPIC-CLAUDE" = inr anthropic
        /\ KeyVault.getSecret azure "OPENAI-API-KEY" = inr openAi
        /\ KeyVault.env (snd run)
           = KeyVault.setEnv "OPENAI_API_KEY" openAi
               (KeyVault.setEnv "ANTHROPIC_API_KEY" anthropic (KeyVault.env p))
        /\ (forall a, anthropic = Some a ->
                      KeyVault.getEnv "ANTHROPIC_API_KEY" (KeyVault.env (snd run)) = Some a)
        /\ (forall o, openAi = Some o ->
                      KeyVault.getEnv "OPENAI_API_KEY" (KeyVault.env (snd run)) = Some o)
        /\ (forall name, name <> "ANTHROPIC_API_KEY" -> name <> "OPENAI_API_KEY" ->
                         KeyVault.getEnv name (KeyVault.env (snd run))
                         = KeyVault.getEnv name (KeyVault.env p)))
  /\ (fst run = Normal tt \/ exists error, fst run = Throws error).
Proof.
  intros run. subst run.
  unfold KeyVault.initializeApiKeysFromKeyVault, KeyVault.fetchBoth.
  assert (Hfail : forall e : Thrown,
            (forall error, Throws (A := unit) e = Throws error ->
               KeyVault.env p = KeyVault.env p
               /\ (KeyVault.console p ++ [KeyVault.Failed e])%list
                  = (KeyVault.console p ++ [KeyVault.Failed error])%list)
            /\ (Throws (A := unit) e = Normal tt -> False)
            /\ (Throws (A := unit) e = Normal tt \/ exists error, Throws (A := unit) e = Throws error)).
  { intros e. split; [intros error Herr; injection Herr as <-; split; reflexivity |].
    split; [discriminate | right; eauto]. }
  destruct (KeyVault.newCredential azure) as [e1 | c].
  { destruct (Hfail e1) as (H1 & H2 & H3). cbn [fst snd KeyVault.env KeyVault.console].
    split; [exact H1 |]. split; [intros H; destruct (H2 H) | exact H3]. }
  destruct (KeyVault.newSecretClient azure keyVaultUrl) as [e2 | c2].
  { destruct (Hfail e2) as (H1 & H2 & H3). cbn [fst snd KeyVault.env KeyVault.console].
    split; [exact H1 |]. split; [intros H; destruct (H2 H) | exact H3]. }
  destruct (KeyVault.getSecret azure "ANTHROPIC-CLAUDE") as [e3 | anthropic].
  { destruct (Hfail e3) as (H1 & H2 & H3). cbn [fst snd KeyVault.env KeyVault.console].
    split; [exact H1 |]. split; [intros H; destruct (H2 H) | exact H3]. }
  destruct (KeyVault.getSecret azure "OPENAI-API-KEY") as [e4 | openAi].
  { destruct (Hfail e4) as (H1 & H2 & H3). cbn [fst snd KeyVault.env KeyVault.console].
    split; [exact H1 |]. split; [intros H; destruct (H2 H) | exact H3]. }
  split; [discriminate |]. split; [| now left].
  intros _. exists anthropic, openAi.
  cbn [snd KeyVault.env KeyVault.setEnv KeyVault.getEnv].
  split; [reflexivity |]. split; [reflexivity |]. split; [reflexivity |].
  split; [intros a ->; now rewrite String.eqb_refl |].
  split; [intros o ->; now rewrite String.eqb_refl |].
  intros name H1 H2.
  apply String.eqb_neq in H1, H2. rewrite String.eqb_sym in H1, H2.
  now rewrite H1, H2.
Qed.
